(** * EfficientNet for Keras: the architecture builder of [efficientnet_pred.py]

    A shallow embedding of the scaling arithmetic ([round_filters],
    [round_repeats]), the padding helper ([correct_pad]), the mobile
    inverted residual [block], the assembler [EfficientNet] and the image
    [preprocess_input], followed by the properties of the builder.

    Modelling conventions.
    - Python [int] is [Z]; [//] and [%] are [Z.div] and [Z.modulo] (both
      floor, with the remainder taking the sign of the divisor).
    - Python [float] is an exact rational [Q]: products, sums and
      comparisons are those of the rationals, so rounding error, overflow and
      NaN of IEEE doubles are outside the model.
    - A [dict] is a [gmap string pyval]; dicts live in a heap of mutable
      objects and are handled through their location, so that aliasing
      between the caller's table and the table the loop mutates is visible.
      The values of a stage dict are typed as in [DEFAULT_BLOCKS_ARGS]:
      where the table holds an [int] the model takes an [int] or a [bool],
      and answers a [float] with [TypeError].
    - Keras layers are not executed: calling a layer records it in the
      construction log [built] and yields a symbolic tensor naming the
      layer and its inputs.  A second log, [block_calls], keeps the
      arguments of every call of [block]; it is ghost state, there to state
      what the assembler passes to [block].
    - Exceptions are values of [exn]; a raise leaves heap and log as they
      were at the point of the raise.  The Keras layers themselves are
      total here: what Keras would raise on arguments it rejects is outside
      the model. *)

From Stdlib Require Import ZArith QArith Qround Lia Lqa String.
From stdpp Require Import gmap strings list.

Open Scope Z_scope.

(** ** Python values, exceptions *)

Inductive pyval :=
  | VInt (z : Z)
  | VFloat (q : Q)
  | VBool (b : bool).

Inductive exn :=
  | ValueError (msg : string)
  | AssertionError
  | KeyError (key : string)
  | TypeError
  | IndexError
  | NameError (name : string)
  | ZeroDivisionError
  | SystemError.

Inductive result (A : Type) :=
  | Ok (a : A)
  | Raise (e : exn).
Arguments Ok {A} a.
Arguments Raise {A} e.

(** [x is True] *)
Definition is_True (v : pyval) : bool :=
  match v with VBool true => true | _ => false end.

(** The value of an integer-typed argument ([bool] is a subclass of [int]). *)
Definition as_int (v : pyval) : result Z :=
  match v with
  | VInt z => Ok z
  | VBool b => Ok (if b then 1 else 0)
  | VFloat _ => Raise TypeError
  end.

(** The value of a numeric argument. *)
Definition as_num (v : pyval) : Q :=
  match v with
  | VInt z => inject_Z z
  | VBool b => if b then 1%Q else 0%Q
  | VFloat q => q
  end.

(** ** Rational comparisons and conversions *)

Definition Qltb (a b : Q) : bool := negb (Qle_bool b a).

(** [int(x)] of a float: truncation toward zero. *)
Definition py_int (x : Q) : Z :=
  if Qle_bool 0 x then Qfloor x else Qceiling x.

(** ** Scaling calculator

    Both are closures of [EfficientNet] over [width_coefficient],
    [depth_coefficient] and [depth_divisor]; the captured variables are the
    leading arguments here. *)

Definition round_filters (width_coefficient : Q) (divisor : Z) (filters : Z)
  : result Z :=
  let filters := (inject_Z filters * width_coefficient)%Q in
  if divisor =? 0 then Raise ZeroDivisionError else
  let new_filters :=
    Z.max divisor
      (py_int (filters + inject_Z divisor / 2)%Q / divisor * divisor) in
  let new_filters :=
    if Qltb (inject_Z new_filters) ((9 # 10) * filters)%Q
    then new_filters + divisor
    else new_filters in
  Ok new_filters.

Definition round_repeats (depth_coefficient : Q) (repeats : Z) : Z :=
  Qceiling (depth_coefficient * inject_Z repeats)%Q.

(** ** Layers, symbolic tensors and the Keras backend *)

Inductive data_format := channels_last | channels_first.
Inductive backend_name := tensorflow | theano | cntk.
Inductive padding_mode := valid | same.

(** [activation_fn] is a function argument of the builder (by default
    [swish]); the string activations of Keras are constructors of their own. *)
Inductive activation :=
  | linear
  | sigmoid
  | softmax
  | activation_fn_of (fn : string).

Definition swish : activation := activation_fn_of "swish".

(** A layer name.  [Block i c] stands for the prefix
    ['block{}{}_'.format(i, chr(c))] chosen by the assembler, [NoPrefix] for
    the empty prefix (the default [name=''] of [block]). *)
Inductive prefix := NoPrefix | Block (i : Z) (c : Z).
Record layer_name := Name { name_prefix : prefix; name_base : string }.

Definition pad2d : Type := (Z * Z) * (Z * Z).

(** The layer constructors the file calls, with the arguments it passes
    (the kernel initialisers, two module constants, are left out). *)
Inductive layer :=
  | Input (shape : list (option Z))
  | InputTensor (shape : list (option Z))
  | ZeroPadding2D (padding : pad2d) (name : layer_name)
  | Conv2D (filters : Z) (kernel_size : Z * Z) (strides : Z)
      (padding : padding_mode) (use_bias : bool) (act : activation)
      (name : layer_name)
  | DepthwiseConv2D (kernel_size : Z) (strides : Z) (padding : padding_mode)
      (use_bias : bool) (name : layer_name)
  | BatchNormalization (axis : Z) (name : layer_name)
  | Activation (act : activation) (name : layer_name)
  | GlobalAveragePooling2D (name : layer_name)
  | GlobalMaxPooling2D (name : layer_name)
  | Reshape (target_shape : Z * Z * Z) (name : layer_name)
  | multiply (name : layer_name)
  | Dropout (rate : Q) (noise_shape : option (list (option Z)))
      (name : layer_name)
  | add (name : layer_name)
  | Dense (units : Z) (act : activation) (name : layer_name).

(** A symbolic tensor: an external tensor, or the output of a layer called
    on tensors. *)
#[local] Unset Elimination Schemes.
Inductive tensor :=
  | External (id : nat)
  | Call (l : layer) (inputs : list tensor).
#[local] Set Elimination Schemes.

(** The backend module [K], which the file passes around as a value. *)
Record Backend := {
  image_data_format : data_format;
  backend : backend_name;
  int_shape : tensor -> list (option Z);
  is_keras_tensor : tensor -> bool
}.

(** ** The construction monad *)

(** The arguments of one call of [block] (but the input tensor and the
    activation). *)
Record block_call := BlockCall {
  call_drop_rate : Q;
  call_name : prefix;
  call_filters_in : Z;
  call_filters_out : Z;
  call_kernel_size : Z;
  call_strides : Z;
  call_expand_ratio : Z;
  call_se_ratio : Q;
  call_id_skip : pyval
}.

Record state := State {
  heap : list (gmap string pyval);
  built : list layer;
  block_calls : list block_call
}.

Definition M (A : Type) : Type := state -> result A * state.

Definition ret {A} (a : A) : M A := fun s => (Ok a, s).
Definition raise {A} (e : exn) : M A := fun s => (Raise e, s).
Definition bind {A B} (m : M A) (k : A -> M B) : M B :=
  fun s => match m s with
           | (Ok a, s') => k a s'
           | (Raise e, s') => (Raise e, s')
           end.
Definition lift {A} (r : result A) : M A := fun s => (r, s).

Notation "x <- m ;; k" := (bind m (fun x => k))
  (at level 100, m at next level, right associativity).
Notation "m ;;; k" := (bind m (fun _ => k))
  (at level 100, right associativity).

(** Calling a layer on tensors: the layer is created (logged) and its
    output tensor returned. *)
Definition call (l : layer) (inputs : list tensor) : M tensor :=
  fun s => (Ok (Call l inputs),
            State (heap s) (built s ++ [l]) (block_calls s)).

(** Entering [block]: its arguments go to the ghost log. *)
Definition enter (c : block_call) : M unit :=
  fun s => (Ok tt, State (heap s) (built s) (block_calls s ++ [c])).

(** ** [correct_pad] *)

Inductive kernel_arg := KInt (k : Z) | KPair (k0 k1 : Z).

Definition correct_pad (K : Backend) (inputs : tensor) (kernel_size : kernel_arg)
  : result pad2d :=
  let img_dim := match image_data_format K with
                 | channels_last => 1%nat
                 | channels_first => 2%nat
                 end in
  let input_size := take 2 (drop img_dim (int_shape K inputs)) in
  let kernel_size := match kernel_size with
                     | KInt k => (k, k)
                     | KPair k0 k1 => (k0, k1)
                     end in
  match input_size !! 0%nat with
  | None => Raise IndexError
  | Some size0 =>
      let adjust :=
        match size0 with
        | None => Ok (1, 1)
        | Some s0 =>
            match input_size !! 1%nat with
            | None => Raise IndexError
            | Some None => Raise TypeError
            | Some (Some s1) => Ok (1 - s0 mod 2, 1 - s1 mod 2)
            end
        end in
      match adjust with
      | Raise e => Raise e
      | Ok adjust =>
          let correct := (kernel_size.1 / 2, kernel_size.2 / 2) in
          Ok ((correct.1 - adjust.1, correct.1),
              (correct.2 - adjust.2, correct.2))
      end
  end.

(** ** The mobile inverted residual [block] *)

Definition block (K : Backend) (inputs : tensor) (activation_fn : activation)
    (drop_rate : Q) (name : prefix)
    (filters_in filters_out kernel_size strides expand_ratio : Z)
    (se_ratio : Q) (id_skip : pyval) : M tensor :=
  let bn_axis := match image_data_format K with
                 | channels_last => -1
                 | channels_first => 1
                 end in
  enter (BlockCall drop_rate name filters_in filters_out kernel_size strides
           expand_ratio se_ratio id_skip) ;;;
  (* Expansion phase *)
  let filters := filters_in * expand_ratio in
  x <- (if negb (expand_ratio =? 1) then
          x <- call (Conv2D filters (1, 1) 1 same false linear
                       (Name name "expand_conv")) [inputs] ;;
          x <- call (BatchNormalization bn_axis (Name name "expand_bn")) [x] ;;
          call (Activation activation_fn (Name name "expand_activation")) [x]
        else ret inputs) ;;
  (* Conduct the Depthwise Convolution *)
  xp <- (if strides =? 2 then
           pad <- lift (correct_pad K x (KInt kernel_size)) ;;
           x <- call (ZeroPadding2D pad (Name name "dwconv_pad")) [x] ;;
           ret (x, valid)
         else ret (x, same)) ;;
  let '(x, conv_pad) := xp in
  x <- call (DepthwiseConv2D kernel_size strides conv_pad false
               (Name name "dwconv")) [x] ;;
  x <- call (BatchNormalization bn_axis (Name name "bn")) [x] ;;
  x <- call (Activation activation_fn (Name name "activation")) [x] ;;
  (* Squeeze and Excitation phase *)
  x <- (if Qltb 0 se_ratio && Qle_bool se_ratio 1 then
          let filters_se := Z.max 1 (py_int (inject_Z filters_in * se_ratio)) in
          se <- call (GlobalAveragePooling2D (Name name "se_squeeze")) [x] ;;
          se <- (if bn_axis =? -1
                 then call (Reshape (1, 1, filters) (Name name "se_reshape")) [se]
                 else call (Reshape (filters, 1, 1) (Name name "se_reshape")) [se]) ;;
          se <- call (Conv2D filters_se (1, 1) 1 same true activation_fn
                        (Name name "se_reduce")) [se] ;;
          se <- call (Conv2D filters (1, 1) 1 same true sigmoid
                        (Name name "se_expand")) [se] ;;
          se <- (match backend K with
                 | theano =>
                     (* [Lambda] is not among the names the file imports *)
                     raise (NameError "Lambda")
                 | _ => ret se
                 end) ;;
          call (multiply (Name name "se_excite")) [x; se]
        else ret x) ;;
  (* Output phase *)
  x <- call (Conv2D filters_out (1, 1) 1 same false linear
               (Name name "project_conv")) [x] ;;
  x <- call (BatchNormalization bn_axis (Name name "project_bn")) [x] ;;
  if is_True id_skip && (strides =? 1) && (filters_in =? filters_out) then
    x <- (if Qltb 0 drop_rate
          then call (Dropout drop_rate (Some [None; Some 1; Some 1; Some 1])
                       (Name name "drop")) [x]
          else ret x) ;;
    call (add (Name name "add")) [x; inputs]
  else ret x.

(** ** Dicts on the heap *)

Definition load (l : nat) : M (gmap string pyval) :=
  fun s => match heap s !! l with
           | Some d => (Ok d, s)
           | None => (Raise SystemError, s)   (* no such object *)
           end.

Definition store (l : nat) (d : gmap string pyval) : M unit :=
  fun s => (Ok tt, State (<[l := d]> (heap s)) (built s) (block_calls s)).

Definition alloc (d : gmap string pyval) : M nat :=
  fun s => (Ok (length (heap s)),
            State (heap s ++ [d]) (built s) (block_calls s)).

(** [args[key]] *)
Definition getitem (l : nat) (key : string) : M pyval :=
  d <- load l ;;
  match d !! key with
  | Some v => ret v
  | None => raise (KeyError key)
  end.

(** [args[key] = v] *)
Definition setitem (l : nat) (key : string) (v : pyval) : M unit :=
  d <- load l ;; store l (<[key := v]> d).

(** [args.pop(key)] *)
Definition pop (l : nat) (key : string) : M pyval :=
  d <- load l ;;
  match d !! key with
  | Some v => store l (delete key d) ;;; ret v
  | None => raise (KeyError key)
  end.

(** [deepcopy] of a list of dicts of scalars: a fresh dict per distinct
    dict, the memo keeping entries that were one object one object. *)
Fixpoint deepcopy_from (memo : gmap nat nat) (ls : list nat) : M (list nat) :=
  match ls with
  | [] => ret []
  | l :: ls =>
      match memo !! l with
      | Some l' =>
          ls' <- deepcopy_from memo ls ;; ret (l' :: ls')
      | None =>
          d <- load l ;;
          l' <- alloc d ;;
          ls' <- deepcopy_from (<[l := l']> memo) ls ;;
          ret (l' :: ls')
      end
  end.

Definition deepcopy (ls : list nat) : M (list nat) := deepcopy_from ∅ ls.

(** [block(x, activation_fn, drop_rate, name=..., **args)]: the keywords of
    the dict become the arguments of [block], the others keep their
    defaults; a keyword [block] does not take is a [TypeError]. *)
Definition block_keywords : list string :=
  ["filters_in"; "filters_out"; "kernel_size"; "strides"; "expand_ratio";
   "se_ratio"; "id_skip"].

Definition kw_int (args : gmap string pyval) (key : string) (default : Z)
  : M Z :=
  match args !! key with
  | None => ret default
  | Some v => lift (as_int v)
  end.

Definition block_kw (K : Backend) (inputs : tensor) (activation_fn : activation)
    (drop_rate : Q) (name : prefix) (l : nat) : M tensor :=
  args <- load l ;;
  if forallb (fun k => bool_decide (k ∈ block_keywords)) (map_to_list args).*1
  then
    filters_in <- kw_int args "filters_in" 32 ;;
    filters_out <- kw_int args "filters_out" 16 ;;
    kernel_size <- kw_int args "kernel_size" 3 ;;
    strides <- kw_int args "strides" 1 ;;
    expand_ratio <- kw_int args "expand_ratio" 1 ;;
    let se_ratio := default 0%Q (as_num <$> args !! "se_ratio") in
    let id_skip := default (VBool true) (args !! "id_skip") in
    block K inputs activation_fn drop_rate name filters_in filters_out
      kernel_size strides expand_ratio se_ratio id_skip
  else raise TypeError.

(** ** Module constants *)

Definition BASE_WEIGHTS_PATH : string :=
  "https://github.com/Callidior/keras-applications/releases/download/efficientnet/".

Definition WEIGHTS_HASHES : gmap string (string * string) :=
  list_to_map
    [("b0", ("e9e877068bd0af75e0a36691e03c072c", "345255ed8048c2f22c793070a9c1a130"));
     ("b1", ("8f83b9aecab222a9a2480219843049a1", "b20160ab7b79b7a92897fcb33d52cc61"));
     ("b2", ("b6185fdcd190285d516936c09dceeaa4", "c6e46333e8cddfa702f4d8b8b6340d70"));
     ("b3", ("b2db0f8aac7c553657abb2cb46dcbfbb", "e0cf8654fad9d3625190e30d70d0c17d"));
     ("b4", ("ab314d28135fe552e2f9312b31da6926", "b46702e4754d2022d62897e0618edc7b"));
     ("b5", ("8d60b903aff50b09c6acf8eaba098e09", "0a839ac36e46552a881f2975aaab442f"));
     ("b6", ("a967457886eac4f5ab44139bdd827920", "375a35c17ef70d46f9c664b03b4437f2"));
     ("b7", ("e964fd6e26e9a4c144bcb811f2a10f20", "d55674cc46b805f4382d18bc08ed43c1"))].

(** One entry of the stage table. *)
Definition stage_dict (kernel_size repeats filters_in filters_out expand_ratio : Z)
    (id_skip : bool) (strides : Z) (se_ratio : Q) : gmap string pyval :=
  list_to_map
    [("kernel_size", VInt kernel_size); ("repeats", VInt repeats);
     ("filters_in", VInt filters_in); ("filters_out", VInt filters_out);
     ("expand_ratio", VInt expand_ratio); ("id_skip", VBool id_skip);
     ("strides", VInt strides); ("se_ratio", VFloat se_ratio)].

(** The seven dicts of [DEFAULT_BLOCKS_ARGS], as the module creates them. *)
Definition DEFAULT_BLOCKS_ARGS_dicts : list (gmap string pyval) :=
  [stage_dict 3 1 32 16 1 true 1 (25 # 100);
   stage_dict 3 2 16 24 6 true 2 (25 # 100);
   stage_dict 5 2 24 40 6 true 2 (25 # 100);
   stage_dict 3 3 40 80 6 true 2 (25 # 100);
   stage_dict 5 3 80 112 6 true 1 (25 # 100);
   stage_dict 5 4 112 192 6 true 2 (25 # 100);
   stage_dict 3 1 192 320 6 true 1 (25 # 100)].

(** The heap once the module is imported, and the list [DEFAULT_BLOCKS_ARGS]
    of the seven objects in it. *)
Definition module_heap : list (gmap string pyval) := DEFAULT_BLOCKS_ARGS_dicts.
Definition DEFAULT_BLOCKS_ARGS : list nat := seq 0 7.

(** ** The assembler *)

Inductive loaded_weights :=
  | random_initialization
  | from_url (file_name url file_hash : string)
  | from_path (path : string).

Record Model := {
  inputs_of : list tensor;
  outputs_of : tensor;
  name_of : string;
  weights_of : loaded_weights
}.

(** The arguments of [EfficientNet]. *)
Record Params := {
  width_coefficient : Q;
  depth_coefficient : Q;
  default_size : Z;
  dropout_rate : Q;
  drop_connect_rate : Q;
  depth_divisor : Z;
  activation_fn : activation;
  blocks_args : list nat;
  model_name : string;
  include_top : bool;
  weights : option string;
  input_tensor : option tensor;
  input_shape : option (list (option Z));
  pooling : option string;
  num_classes : Z
}.

(** The world outside the file: the file system seen by [os.path.exists],
    [_obtain_input_shape] of [imagenet_utils] and [get_source_inputs] of
    Keras. *)
Record World := {
  path_exists : string -> bool;
  _obtain_input_shape :
    option (list (option Z)) -> Z -> Z -> data_format -> bool ->
    option string -> result (list (option Z));
  get_source_inputs : tensor -> list tensor
}.

(** [for v in xs: acc = body(v, acc)] *)
Fixpoint for_each {A S : Type} (xs : list A) (body : A -> S -> M S) (acc : S)
  : M S :=
  match xs with
  | [] => ret acc
  | v :: xs => acc <- body v acc ;; for_each xs body acc
  end.

(** [s[-2:]] *)
Definition last_two (s : string) : string :=
  substring (String.length s - 2) 2 s.

(** [sum(args['repeats'] for args in blocks_args)] *)
Fixpoint sum_repeats (ls : list nat) (acc : Z) : M Z :=
  match ls with
  | [] => ret acc
  | l :: ls =>
      r <- getitem l "repeats" ;;
      r <- lift (as_int r) ;;
      sum_repeats ls (acc + r)
  end.

(** [x / y] on floats *)
Definition truediv (x y : Q) : M Q :=
  if Qeq_bool y 0 then raise ZeroDivisionError else ret (x / y)%Q.

(** The messages of the two [ValueError]s of [EfficientNet] (the second
    without its inner quotation marks). *)
Definition weights_message : string :=
  "The `weights` argument should be either `None` (random initialization), `imagenet` (pre-training on ImageNet), or the path to the weights file to be loaded.".

Definition classes_message : string :=
  "If using `weights` as `imagenet` with `include_top` as true, `classes` should be 1000".

(** The two checks that open [EfficientNet]. *)
Definition check_arguments (W : World) (p : Params) : M unit :=
  (if negb (match weights p with
            | None => true
            | Some w => bool_decide (w = "imagenet") || path_exists W w
            end)
   then raise (ValueError weights_message)
   else ret tt) ;;;
  if bool_decide (weights p = Some "imagenet") && include_top p
     && negb (num_classes p =? 1000)
  then raise (ValueError classes_message)
  else ret tt.

(** The body of [for j in range(round_repeats(args.pop('repeats')))]; the
    loops carry the tensor [x] and the block counter [b]. *)
Definition build_block (K : Backend) (p : Params) (blocks : Q) (i : Z)
    (args : nat) (j : Z) (xb : tensor * Z) : M (tensor * Z) :=
  let '(x, b) := xb in
  (* The first block needs to take care of stride and filter size growth. *)
  (if 0 <? j then
     setitem args "strides" (VInt 1) ;;;
     f <- getitem args "filters_out" ;;
     setitem args "filters_in" f
   else ret tt) ;;;
  drop_rate <- truediv (drop_connect_rate p * inject_Z b) blocks ;;
  x <- block_kw K x (activation_fn p) drop_rate (Block (i + 1) (j + 97))
         args ;;
  ret (x, b + 1).

(** The body of [for (i, args) in enumerate(blocks_args)]. *)
Definition build_stage (K : Backend) (p : Params) (blocks : Q)
    (iargs : Z * nat) (xb : tensor * Z) : M (tensor * Z) :=
  let '(i, args) := iargs in
  repeats <- getitem args "repeats" ;;
  repeats <- lift (as_int repeats) ;;
  if negb (0 <? repeats) then raise AssertionError else
  (* Update the block input and output filters based on depth multiplier. *)
  f <- getitem args "filters_in" ;;
  f <- lift (as_int f) ;;
  f <- lift (round_filters (width_coefficient p) (depth_divisor p) f) ;;
  setitem args "filters_in" (VInt f) ;;;
  f <- getitem args "filters_out" ;;
  f <- lift (as_int f) ;;
  f <- lift (round_filters (width_coefficient p) (depth_divisor p) f) ;;
  setitem args "filters_out" (VInt f) ;;;
  repeats <- pop args "repeats" ;;
  repeats <- lift (as_int repeats) ;;
  for_each (seqZ 0 (round_repeats (depth_coefficient p) repeats))
    (build_block K p blocks i args) xb.

Definition EfficientNet (K : Backend) (W : World) (p : Params) : M Model :=
  check_arguments W p ;;;
  (* Determine the proper input shape *)
  input_shape <- lift (_obtain_input_shape W (input_shape p) (default_size p) 32
                         (image_data_format K) (include_top p) (weights p)) ;;
  img_input <- (match input_tensor p with
                | None => call (Input input_shape) []
                | Some t =>
                    if negb (is_keras_tensor K t)
                    then call (InputTensor input_shape) [t]
                    else ret t
                end) ;;
  let bn_axis := match image_data_format K with
                 | channels_last => -1
                 | channels_first => 1
                 end in
  let round_filters := round_filters (width_coefficient p) (depth_divisor p) in
  (* Build the stem *)
  let x := img_input in
  pad <- lift (correct_pad K x (KInt 3)) ;;
  x <- call (ZeroPadding2D pad (Name NoPrefix "stem_conv_pad")) [x] ;;
  f <- lift (round_filters 32) ;;
  x <- call (Conv2D f (3, 3) 2 valid false linear (Name NoPrefix "stem_conv"))
         [x] ;;
  x <- call (BatchNormalization bn_axis (Name NoPrefix "stem_bn")) [x] ;;
  x <- call (Activation (activation_fn p) (Name NoPrefix "stem_activation"))
         [x] ;;
  (* Build the blocks *)
  blocks_args <- deepcopy (blocks_args p) ;;
  let b := 0 in
  blocks <- sum_repeats blocks_args 0 ;;
  let blocks := inject_Z blocks in
  xb <- for_each (zip (seqZ 0 (Z.of_nat (length blocks_args))) blocks_args)
          (build_stage K p blocks) (x, b) ;;
  let '(x, b) := xb in
  (* Build the top *)
  f <- lift (round_filters 1280) ;;
  x <- call (Conv2D f (1, 1) 1 same false linear (Name NoPrefix "top_conv"))
         [x] ;;
  x <- call (BatchNormalization bn_axis (Name NoPrefix "top_bn")) [x] ;;
  x <- call (Activation (activation_fn p) (Name NoPrefix "top_activation"))
         [x] ;;
  x <- (if include_top p then
          x <- call (GlobalAveragePooling2D (Name NoPrefix "avg_pool")) [x] ;;
          x <- (if Qltb 0 (dropout_rate p)
                then call (Dropout (dropout_rate p) None
                             (Name NoPrefix "top_dropout")) [x]
                else ret x) ;;
          call (Dense (num_classes p) softmax (Name NoPrefix "probs")) [x]
        else
          if bool_decide (pooling p = Some "avg")
          then call (GlobalAveragePooling2D (Name NoPrefix "avg_pool")) [x]
          else if bool_decide (pooling p = Some "max")
          then call (GlobalMaxPooling2D (Name NoPrefix "max_pool")) [x]
          else ret x) ;;
  (* Ensure the model considers any potential predecessors of `input_tensor`. *)
  let inputs := match input_tensor p with
                | Some t => get_source_inputs W t
                | None => [img_input]
                end in
  (* Build the model, load weights. *)
  loaded <-
    (match weights p with
     | Some w =>
         if bool_decide (w = "imagenet") then
           let pick (suffix : string) (proj : string * string -> string) :=
             match WEIGHTS_HASHES !! last_two (model_name p) with
             | None => raise (KeyError (last_two (model_name p)))
             | Some h =>
                 let file_name := (model_name p ++ suffix)%string in
                 ret (from_url file_name (BASE_WEIGHTS_PATH ++ file_name)%string
                        (proj h))
             end in
           if include_top p
           then pick "_weights_tf_dim_ordering_tf_kernels_autoaugment.h5" fst
           else pick "_weights_tf_dim_ordering_tf_kernels_autoaugment_notop.h5" snd
         else ret (from_path w)
     | None => ret random_initialization
     end) ;;
  ret {| inputs_of := inputs; outputs_of := x; name_of := model_name p;
         weights_of := loaded |}.

(** The named variants: [EfficientNet] at fixed coefficients, the other
    arguments passed on ([drop_connect_rate], [depth_divisor],
    [activation_fn] and [blocks_args] keep their defaults). *)
Definition variant (width depth : Q) (size : Z) (dropout : Q) (name : string)
    (include_top : bool) (weights : option string)
    (input_tensor : option tensor) (input_shape : option (list (option Z)))
    (pooling : option string) (num_classes : Z) : Params :=
  {| width_coefficient := width; depth_coefficient := depth;
     default_size := size; dropout_rate := dropout;
     drop_connect_rate := 2 # 10; depth_divisor := 8;
     activation_fn := swish; blocks_args := DEFAULT_BLOCKS_ARGS;
     model_name := name; include_top := include_top; weights := weights;
     input_tensor := input_tensor; input_shape := input_shape;
     pooling := pooling; num_classes := num_classes |}.

Definition EfficientNetB0 K W include_top weights input_tensor input_shape
    pooling num_classes : M Model :=
  EfficientNet K W (variant 1 1 224 (2 # 10) "efficientnet-b0" include_top
                      weights input_tensor input_shape pooling num_classes).
Definition EfficientNetB1 K W include_top weights input_tensor input_shape
    pooling num_classes : M Model :=
  EfficientNet K W (variant 1 (11 # 10) 240 (2 # 10) "efficientnet-b1"
                      include_top weights input_tensor input_shape pooling
                      num_classes).
Definition EfficientNetB2 K W include_top weights input_tensor input_shape
    pooling num_classes : M Model :=
  EfficientNet K W (variant (11 # 10) (12 # 10) 260 (3 # 10) "efficientnet-b2"
                      include_top weights input_tensor input_shape pooling
                      num_classes).
Definition EfficientNetB3 K W include_top weights input_tensor input_shape
    pooling num_classes : M Model :=
  EfficientNet K W (variant (12 # 10) (14 # 10) 300 (3 # 10) "efficientnet-b3"
                      include_top weights input_tensor input_shape pooling
                      num_classes).
Definition EfficientNetB4 K W include_top weights input_tensor input_shape
    pooling num_classes : M Model :=
  EfficientNet K W (variant (14 # 10) (18 # 10) 380 (4 # 10) "efficientnet-b4"
                      include_top weights input_tensor input_shape pooling
                      num_classes).
Definition EfficientNetB5 K W include_top weights input_tensor input_shape
    pooling num_classes : M Model :=
  EfficientNet K W (variant (16 # 10) (22 # 10) 456 (4 # 10) "efficientnet-b5"
                      include_top weights input_tensor input_shape pooling
                      num_classes).
Definition EfficientNetB6 K W include_top weights input_tensor input_shape
    pooling num_classes : M Model :=
  EfficientNet K W (variant (18 # 10) (26 # 10) 528 (5 # 10) "efficientnet-b6"
                      include_top weights input_tensor input_shape pooling
                      num_classes).
Definition EfficientNetB7 K W include_top weights input_tensor input_shape
    pooling num_classes : M Model :=
  EfficientNet K W (variant 2 (31 # 10) 600 (5 # 10) "efficientnet-b7"
                      include_top weights input_tensor input_shape pooling
                      num_classes).

(** ** A concrete backend and world, for running the builder

    Static output shapes of the Keras layers used here ([channels_last]),
    as the Keras documentation gives them; they only instantiate
    [int_shape] where the builder is run on concrete arguments. *)

Definition conv_output_length (padding : padding_mode) (kernel strides : Z)
    (n : Z) : Z :=
  match padding with
  | valid => (n - kernel) / strides + 1
  | same => (n + strides - 1) / strides
  end.

Fixpoint keras_int_shape (t : tensor) : list (option Z) :=
  match t with
  | External _ => []
  | Call l ts =>
      let shape := match ts with
                   | t :: _ => keras_int_shape t
                   | [] => []
                   end in
      match l, shape with
      | Input sh, _ => None :: sh
      | InputTensor sh, _ => None :: sh
      | ZeroPadding2D ((pad_top, pad_bottom), (pad_left, pad_right)) _,
        [n; h; w; c] =>
          [n; (fun h => h + pad_top + pad_bottom) <$> h;
           (fun w => w + pad_left + pad_right) <$> w; c]
      | Conv2D f (kh, kw) st pad _ _ _, [n; h; w; c] =>
          [n; conv_output_length pad kh st <$> h;
           conv_output_length pad kw st <$> w; Some f]
      | DepthwiseConv2D k st pad _ _, [n; h; w; c] =>
          [n; conv_output_length pad k st <$> h;
           conv_output_length pad k st <$> w; c]
      | GlobalAveragePooling2D _, [n; h; w; c] => [n; c]
      | GlobalMaxPooling2D _, [n; h; w; c] => [n; c]
      | Reshape (a, b, c) _, n :: _ => [n; Some a; Some b; Some c]
      | Dense u _ _, [n; c] => [n; Some u]
      | _, _ => shape
      end
  end.

Definition tf_backend : Backend :=
  {| image_data_format := channels_last;
     backend := tensorflow;
     int_shape := keras_int_shape;
     is_keras_tensor := fun _ => true |}.

(** Modelled from the spec: [_obtain_input_shape] belongs to the module
    [imagenet_utils], which is not among the sources.  The spec (4.3, step
    2) has it fall back to the default size (square image, 3 channels) when
    no shape is given and enforce a minimum spatial size of 32. *)
Definition obtain_input_shape_model (input_shape : option (list (option Z)))
    (default_size min_size : Z) (data_format : data_format)
    (require_flatten : bool) (weights : option string)
  : result (list (option Z)) :=
  match input_shape with
  | None => Ok [Some default_size; Some default_size; Some 3]
  | Some sh =>
      if forallb (fun d => match d with
                           | Some n => min_size <=? n
                           | None => true
                           end) (take 2 sh)
      then Ok sh
      else Raise (ValueError "Input size must be at least the minimum size")
  end.

(** A world with no weight files on disk. *)
Definition bare_world : World :=
  {| path_exists := fun _ => false;
     _obtain_input_shape := obtain_input_shape_model;
     get_source_inputs := fun t => [t] |}.

(** The state in which a script calls the builder right after the import:
    the heap holds the seven dicts of the table, nothing is built. *)
Definition initial_state : state := State module_heap [] [].


Definition zero_repeats_params : Params :=
  {| width_coefficient := 1; depth_coefficient := 1; default_size := 224;
     dropout_rate := 2 # 10; drop_connect_rate := 2 # 10; depth_divisor := 8;
     activation_fn := swish; blocks_args := [0%nat];
     model_name := "efficientnet"; include_top := true; weights := None;
     input_tensor := None; input_shape := None; pooling := None;
     num_classes := 1000 |}.

(** ** What the specification says, in its own words *)



(** The specification's [total_block_count]: the sum of the repeat counts
    after scaling. *)
Definition scaled_block_count (depth_coefficient : Q)
    (stages : list (gmap string pyval)) : Z :=
  foldr (fun d acc =>
           match d !! "repeats" with
           | Some (VInt r) => round_repeats depth_coefficient r + acc
           | _ => acc
           end) 0 stages.

(** The sum the assembler divides by: the repeat counts of the table. *)
Definition table_block_count (stages : list (gmap string pyval)) : Z :=
  foldr (fun d acc =>
           match d !! "repeats" with
           | Some (VInt r) => r + acc
           | _ => acc
           end) 0 stages.

(** ** Predicates used in the statements *)

(** The slice [K.int_shape(inputs)[img_dim:(img_dim + 2)]] of
    [correct_pad]. *)
Definition input_size (K : Backend) (inputs : tensor) : list (option Z) :=
  take 2 (drop (match image_data_format K with
                | channels_last => 1%nat
                | channels_first => 2%nat
                end) (int_shape K inputs)).

(** The layers of the residual step of [block]. *)
Definition is_residual_layer (l : layer) : bool :=
  match l with
  | Dropout _ _ _ | add _ => true
  | _ => false
  end.

(** The layers of the squeeze-and-excitation phase of [block]. *)
Definition is_se_layer (l : layer) : bool :=
  match l with
  | GlobalAveragePooling2D _ | Reshape _ _ | multiply _ => true
  | Conv2D _ _ _ _ _ _ (Name _ base) =>
      bool_decide (base = "se_reduce") || bool_decide (base = "se_expand")
  | _ => false
  end.

(** A stage's dict in the loop, once [repeats] is popped. *)
Definition block_dict (kernel_size filters_in filters_out expand_ratio : Z)
    (id_skip : bool) (strides : Z) (se_ratio : Q) : gmap string pyval :=
  list_to_map
    [("kernel_size", VInt kernel_size);
     ("filters_in", VInt filters_in); ("filters_out", VInt filters_out);
     ("expand_ratio", VInt expand_ratio); ("id_skip", VBool id_skip);
     ("strides", VInt strides); ("se_ratio", VFloat se_ratio)].

(** The call of [block] the loop makes for block [j] of stage [i], as
    block number [b] of the network. *)
Definition stage_call (p : Params) (blocks : Q) (i j b : Z)
    (ks fi fo er : Z) (sk : bool) (st : Z) (se : Q) : block_call :=
  BlockCall (drop_connect_rate p * inject_Z b / blocks) (Block (i + 1) (j + 97))
    fi fo ks st er se (VBool sk).



(** The value of [round_filters] under the coefficients of [p]. *)
Definition scaled (p : Params) (filters : Z) : Z :=
  match round_filters (width_coefficient p) (depth_divisor p) filters with
  | Ok f => f
  | Raise _ => 0
  end.







(** The tensor the depthwise phase of [block] starts from: the input, or
    the output of the expansion phase. *)
Definition depthwise_input (K : Backend) (inputs : tensor)
    (act : activation) (name : prefix) (filters_in expand_ratio : Z) : tensor :=
  if expand_ratio =? 1 then inputs
  else
    Call (Activation act (Name name "expand_activation"))
      [Call (BatchNormalization (match image_data_format K with
                                 | channels_last => -1
                                 | channels_first => 1
                                 end) (Name name "expand_bn"))
         [Call (Conv2D (filters_in * expand_ratio) (1, 1) 1 same false linear
                  (Name name "expand_conv")) [inputs]]].

(** [correct_pad] answers on that tensor (its spatial sizes are both known
    to the backend, or the first is unknown). *)
Definition pads (K : Backend) (inputs : tensor) (act : activation)
    (name : prefix) (filters_in kernel_size expand_ratio : Z) : Prop :=
  exists pad,
    correct_pad K (depthwise_input K inputs act name filters_in expand_ratio)
      (KInt kernel_size) = Ok pad.

(** A result that is a [ValueError], and a computation that raises none. *)
Definition is_ValueError {A : Type} (r : result A) : bool :=
  match r with
  | Raise (ValueError _) => true
  | _ => false
  end.

Definition no_ValueError {A : Type} (m : M A) : Prop :=
  forall s, is_ValueError (m s).1 = false.

(** The first [n] objects of the heap are as they were, and no object is
    gone. *)
Definition extends (n : nat) (s s' : state) : Prop :=
  take n (heap s') = take n (heap s) /\
  (length (heap s) <= length (heap s'))%nat.

(** A computation that leaves the first [n] objects alone. *)
Definition keeps (n : nat) {A : Type} (m : M A) : Prop :=
  forall s r s',
    (n <= length (heap s))%nat -> m s = (r, s') -> extends n s s'.

(** ** More predicates on layers *)

(** The [name] argument of a layer; the [Input] layers are given none. *)
Definition layer_name_of (l : layer) : option layer_name :=
  match l with
  | Input _ | InputTensor _ => None
  | ZeroPadding2D _ n | Conv2D _ _ _ _ _ _ n | DepthwiseConv2D _ _ _ _ n
  | BatchNormalization _ n | Activation _ n | GlobalAveragePooling2D n
  | GlobalMaxPooling2D n | Reshape _ n | multiply n | Dropout _ _ n | add n
  | Dense _ _ n => Some n
  end.

(** The layers of the expansion phase of [block]. *)
Definition is_expand_layer (l : layer) : bool :=
  match layer_name_of l with
  | Some (Name _ base) =>
      bool_decide (base = "expand_conv") || bool_decide (base = "expand_bn")
      || bool_decide (base = "expand_activation")
  | None => false
  end.

(** The padding and the convolution of the depthwise phase of [block]. *)
Definition is_depthwise_layer (l : layer) : bool :=
  match l with
  | ZeroPadding2D _ _ | DepthwiseConv2D _ _ _ _ _ => true
  | _ => false
  end.

(** The base names of the layers of [block], in the order of the code. *)
Definition block_layer_names : list string :=
  ["expand_conv"; "expand_bn"; "expand_activation"; "dwconv_pad"; "dwconv";
   "bn"; "activation"; "se_squeeze"; "se_reshape"; "se_reduce"; "se_expand";
   "se_excite"; "project_conv"; "project_bn"; "drop"; "add"].

(** ** The ends of the assembler *)

(** The tensor the stem starts from, and the layers built for it:
    [img_input] of [EfficientNet]. *)
Definition input_of (K : Backend) (p : Params) (shape : list (option Z))
  : tensor :=
  match input_tensor p with
  | None => Call (Input shape) []
  | Some t =>
      if negb (is_keras_tensor K t) then Call (InputTensor shape) [t] else t
  end.

Definition input_layers (K : Backend) (p : Params) (shape : list (option Z))
  : list layer :=
  match input_tensor p with
  | None => [Input shape]
  | Some t => if negb (is_keras_tensor K t) then [InputTensor shape] else []
  end.

(** [EfficientNet] from [# Build the top] on, as a function of [img_input]
    and of the output [x] of the blocks. *)
Definition build_top (K : Backend) (W : World) (p : Params)
    (img_input x : tensor) : M Model :=
  let bn_axis := match image_data_format K with
                 | channels_last => -1
                 | channels_first => 1
                 end in
  let round_filters := round_filters (width_coefficient p) (depth_divisor p) in
  f <- lift (round_filters 1280) ;;
  x <- call (Conv2D f (1, 1) 1 same false linear (Name NoPrefix "top_conv"))
         [x] ;;
  x <- call (BatchNormalization bn_axis (Name NoPrefix "top_bn")) [x] ;;
  x <- call (Activation (activation_fn p) (Name NoPrefix "top_activation"))
         [x] ;;
  x <- (if include_top p then
          x <- call (GlobalAveragePooling2D (Name NoPrefix "avg_pool")) [x] ;;
          x <- (if Qltb 0 (dropout_rate p)
                then call (Dropout (dropout_rate p) None
                             (Name NoPrefix "top_dropout")) [x]
                else ret x) ;;
          call (Dense (num_classes p) softmax (Name NoPrefix "probs")) [x]
        else
          if bool_decide (pooling p = Some "avg")
          then call (GlobalAveragePooling2D (Name NoPrefix "avg_pool")) [x]
          else if bool_decide (pooling p = Some "max")
          then call (GlobalMaxPooling2D (Name NoPrefix "max_pool")) [x]
          else ret x) ;;
  let inputs := match input_tensor p with
                | Some t => get_source_inputs W t
                | None => [img_input]
                end in
  loaded <-
    (match weights p with
     | Some w =>
         if bool_decide (w = "imagenet") then
           let pick (suffix : string) (proj : string * string -> string) :=
             match WEIGHTS_HASHES !! last_two (model_name p) with
             | None => raise (KeyError (last_two (model_name p)))
             | Some h =>
                 let file_name := (model_name p ++ suffix)%string in
                 ret (from_url file_name (BASE_WEIGHTS_PATH ++ file_name)%string
                        (proj h))
             end in
           if include_top p
           then pick "_weights_tf_dim_ordering_tf_kernels_autoaugment.h5" fst
           else pick "_weights_tf_dim_ordering_tf_kernels_autoaugment_notop.h5" snd
         else ret (from_path w)
     | None => ret random_initialization
     end) ;;
  ret {| inputs_of := inputs; outputs_of := x; name_of := model_name p;
         weights_of := loaded |}.

(** The tensor the model puts out, from the output [x] of the blocks. *)
Definition top_output (K : Backend) (p : Params) (x : tensor) : tensor :=
  let features :=
    Call (Activation (activation_fn p) (Name NoPrefix "top_activation"))
      [Call (BatchNormalization (match image_data_format K with
                                 | channels_last => -1
                                 | channels_first => 1
                                 end) (Name NoPrefix "top_bn"))
         [Call (Conv2D (scaled p 1280) (1, 1) 1 same false linear
                  (Name NoPrefix "top_conv")) [x]]] in
  let pooled :=
    Call (GlobalAveragePooling2D (Name NoPrefix "avg_pool")) [features] in
  if include_top p then
    Call (Dense (num_classes p) softmax (Name NoPrefix "probs"))
      [if Qltb 0 (dropout_rate p)
       then Call (Dropout (dropout_rate p) None (Name NoPrefix "top_dropout"))
              [pooled]
       else pooled]
  else if bool_decide (pooling p = Some "avg") then pooled
  else if bool_decide (pooling p = Some "max")
  then Call (GlobalMaxPooling2D (Name NoPrefix "max_pool")) [features]
  else features.

(** The weights file the builder asks for. *)
Definition weights_file (p : Params) : string :=
  (model_name p ++
   (if include_top p
    then "_weights_tf_dim_ordering_tf_kernels_autoaugment.h5"
    else "_weights_tf_dim_ordering_tf_kernels_autoaugment_notop.h5"))%string.

(** A computation that only appends to the construction log. *)
Definition grows {A : Type} (m : M A) : Prop :=
  forall s, built s `prefix_of` built (m s).2.

(** ** [preprocess_input]

    An image as [img_to_array] returns it is a list of rows of pixels of
    channel values, floats; the argument of [preprocess_input] is taken as
    that array.  A batch is a list of images. *)

(** [np.expand_dims(x, axis=0)] *)
Definition expand_dims_0 (x : list (list (list Q)))
  : list (list (list (list Q))) := [x].

(** [np.divide], [np.subtract] and [np.multiply] of a batch and a scalar:
    the operation on every value. *)
Definition np_map (f : Q -> Q) (x : list (list (list (list Q))))
  : list (list (list (list Q))) :=
  (fun img : list (list (list Q)) =>
     (fun row : list (list Q) =>
        (fun px : list Q => f <$> px) <$> row) <$> img) <$> x.

Definition preprocess_input (x : list (list (list Q)))
  : list (list (list (list Q))) :=
  let x := expand_dims_0 x in
  let x := np_map (fun v => v / 255)%Q x in
  let x := np_map (fun v => v - (1 # 2))%Q x in
  let output := np_map (fun v => v * 2)%Q x in
  output.

(** The value of channel [c] of pixel [j] of row [i]. *)
Definition pixel (x : list (list (list Q))) (i j c : nat) : option Q :=
  match x !! i with
  | Some row => match row !! j with
                | Some px => px !! c
                | None => None
                end
  | None => None
  end.

(** ** Layer names of a build *)

(** A computation that builds no named layer. *)
Definition unnamed {A : Type} (m : M A) : Prop :=
  forall s, exists new,
    built (m s).2 = built s ++ new /\ omap layer_name_of new = [].

(** A computation whose layers have names in [P], no two the same. *)
Definition named (P : layer_name -> Prop) {A : Type} (m : M A) : Prop :=
  forall s, exists new,
    built (m s).2 = built s ++ new /\
    NoDup (omap layer_name_of new) /\
    forall n, n ∈ omap layer_name_of new -> P n.

(** * Properties *)

(** ** Rationals: floors, ceilings, comparisons *)












Example round_filters_32 : round_filters (11 # 10) 8 32 = Ok 32.
Proof. reflexivity. Qed.

Example round_filters_40 : round_filters (11 # 10) 8 40 = Ok 48.
Proof. reflexivity. Qed.

Example round_repeats_3 : round_repeats (12 # 10) 3 = 4.
Proof. reflexivity. Qed.

(** ** The scaling calculator *)




(** Below the first multiple the result is 8, not the nearer 0. *)
Example round_filters_small : round_filters 1 8 1 = Ok 8.
Proof. reflexivity. Qed.



(** ** [correct_pad] *)



(** An odd size takes the symmetric pad. *)
Example correct_pad_odd :
  correct_pad tf_backend (Call (Input [Some 65; Some 65; Some 3]) [])
    (KInt 5) = Ok ((2, 2), (2, 2)).
Proof. reflexivity. Qed.

(** ** The monad *)

Lemma bind_ok {A B} (m : M A) (k : A -> M B) s a s' :
  m s = (Ok a, s') -> bind m k s = k a s'.
Proof. intros H. unfold bind. now rewrite H. Qed.

Lemma bind_raise {A B} (m : M A) (k : A -> M B) s e s' :
  m s = (Raise e, s') -> bind m k s = (Raise e, s').
Proof. intros H. unfold bind. now rewrite H. Qed.

(** ** The argument checks *)


(** The checks are the first thing the builder does: what they raise, the
    builder raises, in the same state. *)
Lemma EfficientNet_checks_first (K : Backend) (W : World) (p : Params) s e s' :
  check_arguments W p s = (Raise e, s') ->
  EfficientNet K W p s = (Raise e, s').
Proof. intros H. unfold EfficientNet. now apply bind_raise. Qed.

Lemma EfficientNet_checks_first_witness :
  EfficientNet tf_backend bare_world
    (variant (11 # 10) (12 # 10) 260 (3 # 10) "efficientnet-b2" true
       (Some "imagenet") None None None 10)
    initial_state = (Raise (ValueError classes_message), initial_state).
Proof.
  exact (EfficientNet_checks_first tf_backend bare_world
           (variant (11 # 10) (12 # 10) 260 (3 # 10) "efficientnet-b2" true
              (Some "imagenet") None None None 10)
           initial_state (ValueError classes_message) initial_state eq_refl).
Defined.

(** The end-to-end case of the specification: B2 with pretrained weights
    and ten classes fails on the head size, nothing built. *)
Example B2_ten_classes :
  EfficientNetB2 tf_backend bare_world true (Some "imagenet") None None None 10
    initial_state = (Raise (ValueError classes_message), initial_state).
Proof. reflexivity. Qed.


(** ** The block constructor *)

(** Running the monad's primitives. *)
Ltac run :=
  cbv beta iota zeta delta
    [bind call enter ret raise lift heap built block_calls fst snd negb andb
     Z.eqb Pos.eqb].

Ltac flatten_log := rewrite <- ?app_assoc; cbn [app].


(** What [block] builds and returns, in full: [y] is the input of the
    activation that closes the depthwise phase. *)
Lemma block_runs (K : Backend) (inputs : tensor) (act : activation)
    (drop_rate : Q) (name : prefix)
    (filters_in filters_out kernel_size strides expand_ratio : Z)
    (se_ratio : Q) (id_skip : pyval) (s : state) :
  backend K <> theano ->
  (strides = 2 ->
   pads K inputs act name filters_in kernel_size expand_ratio) ->
  let skip := is_True id_skip && (strides =? 1) && (filters_in =? filters_out) in
  let gated := Qltb 0 se_ratio && Qle_bool se_ratio 1 in
  let bn_axis := match image_data_format K with
                 | channels_last => -1
                 | channels_first => 1
                 end in
  let filters := filters_in * expand_ratio in
  let filters_se := Z.max 1 (py_int (inject_Z filters_in * se_ratio)) in
  let squeeze := GlobalAveragePooling2D (Name name "se_squeeze") in
  let reshape := Reshape (match image_data_format K with
                          | channels_last => (1, 1, filters)
                          | channels_first => (filters, 1, 1)
                          end) (Name name "se_reshape") in
  let reduce := Conv2D filters_se (1, 1) 1 same true act
                  (Name name "se_reduce") in
  let expand := Conv2D filters (1, 1) 1 same true sigmoid
                  (Name name "se_expand") in
  let excite := multiply (Name name "se_excite") in
  let drop := Dropout drop_rate (Some [None; Some 1; Some 1; Some 1])
                (Name name "drop") in
  exists new y,
    let x := Call (Activation act (Name name "activation")) [y] in
    let gate :=
      Call expand [Call reduce [Call reshape [Call squeeze [x]]]] in
    let projected :=
      Call (BatchNormalization bn_axis (Name name "project_bn"))
        [Call (Conv2D filters_out (1, 1) 1 same false linear
                 (Name name "project_conv"))
           [if gated then Call excite [x; gate] else x]] in
    block K inputs act drop_rate name filters_in filters_out kernel_size
      strides expand_ratio se_ratio id_skip s =
      (Ok (if skip
           then Call (add (Name name "add"))
                  [if Qltb 0 drop_rate then Call drop [projected]
                   else projected;
                   inputs]
           else projected),
       State (heap s) (built s ++ new)
         (block_calls s ++
            [BlockCall drop_rate name filters_in filters_out kernel_size
               strides expand_ratio se_ratio id_skip])) /\
    List.filter is_residual_layer new =
      (if skip
       then (if Qltb 0 drop_rate then [drop] else []) ++ [add (Name name "add")]
       else []) /\
    List.filter is_se_layer new =
      (if gated then [squeeze; reshape; reduce; expand; excite] else []).
Proof.
  intros Hbackend Hpads skip gated bn_axis filters filters_se squeeze reshape
    reduce expand excite drop.
  subst skip gated bn_axis filters filters_se squeeze reshape reduce expand
    excite drop.
  destruct s as [h b c]. unfold block.
  unfold pads, depthwise_input in Hpads.
  destruct (image_data_format K);
    destruct (expand_ratio =? 1);
    (destruct (Z.eqb_spec strides 2) as [->|_];
       [ destruct (Hpads eq_refl) as [pad Hpad]; clear Hpads;
         destruct (is_True id_skip)
       | clear Hpads;
         destruct (is_True id_skip && (strides =? 1)
                   && (filters_in =? filters_out)) ]);
    destruct (Qltb 0 se_ratio && Qle_bool se_ratio 1);
    destruct (backend K); try contradiction;
    destruct (Qltb 0 drop_rate);
    run;
    try (rewrite Hpad; run);
    eexists _, _;
    (split; [flatten_log; reflexivity | split; reflexivity]).
Qed.

(** On the TensorFlow backend [block] returns, with the heap as it was and
    its arguments logged. *)
Lemma block_returns (K : Backend) (inputs : tensor) (act : activation)
    (drop_rate : Q) (name : prefix)
    (filters_in filters_out kernel_size strides expand_ratio : Z)
    (se_ratio : Q) (id_skip : pyval) (s : state) :
  backend K <> theano ->
  (strides = 2 ->
   pads K inputs act name filters_in kernel_size expand_ratio) ->
  exists out new,
    block K inputs act drop_rate name filters_in filters_out kernel_size
      strides expand_ratio se_ratio id_skip s =
      (Ok out,
       State (heap s) (built s ++ new)
         (block_calls s ++
            [BlockCall drop_rate name filters_in filters_out kernel_size
               strides expand_ratio se_ratio id_skip])).
Proof.
  intros Hbackend Hpads.
  destruct (block_runs K inputs act drop_rate name filters_in filters_out
              kernel_size strides expand_ratio se_ratio id_skip s
              Hbackend Hpads) as (new & y & Hrun & _).
  eauto.
Qed.

(** C5.  On the TensorFlow backend (and with [correct_pad] answering when
    [strides = 2]) [block] returns; the residual [add] of the block input
    onto the projected output is built if and only if [id_skip is True],
    [strides = 1] and [filters_in = filters_out]; in that branch a
    [Dropout] with noise shape [(None, 1, 1, 1)] comes before the [add]
    exactly when [drop_rate > 0]; otherwise the projected output is returned
    as it is, with neither layer built. *)
Theorem block_residual (K : Backend) (inputs : tensor) (act : activation)
    (drop_rate : Q) (name : prefix)
    (filters_in filters_out kernel_size strides expand_ratio : Z)
    (se_ratio : Q) (id_skip : pyval) (s : state) :
  backend K <> theano ->
  (strides = 2 ->
   pads K inputs act name filters_in kernel_size expand_ratio) ->
  let skip := is_True id_skip && (strides =? 1) && (filters_in =? filters_out) in
  let bn_axis := match image_data_format K with
                 | channels_last => -1
                 | channels_first => 1
                 end in
  exists new main,
    let projected :=
      Call (BatchNormalization bn_axis (Name name "project_bn"))
        [Call (Conv2D filters_out (1, 1) 1 same false linear
                 (Name name "project_conv")) [main]] in
    let drop := Dropout drop_rate (Some [None; Some 1; Some 1; Some 1])
                  (Name name "drop") in
    block K inputs act drop_rate name filters_in filters_out kernel_size
      strides expand_ratio se_ratio id_skip s =
      (Ok (if skip
           then Call (add (Name name "add"))
                  [if Qltb 0 drop_rate then Call drop [projected]
                   else projected;
                   inputs]
           else projected),
       State (heap s) (built s ++ new)
         (block_calls s ++
            [BlockCall drop_rate name filters_in filters_out kernel_size
               strides expand_ratio se_ratio id_skip])) /\
    List.filter is_residual_layer new =
      (if skip
       then (if Qltb 0 drop_rate then [drop] else []) ++ [add (Name name "add")]
       else []).
Proof.
  intros Hbackend Hpads skip bn_axis.
  destruct (block_runs K inputs act drop_rate name filters_in filters_out
              kernel_size strides expand_ratio se_ratio id_skip s
              Hbackend Hpads) as (new & y & Hrun & Hres & _).
  eexists new, _. split; [exact Hrun | exact Hres].
Qed.

Lemma block_residual_witness :
  let x := Call (Input [Some 130; Some 130; Some 16]) [] in
  let drop := Dropout (1 # 80) (Some [None; Some 1; Some 1; Some 1])
                (Name (Block 1 98) "drop") in
  exists new main,
    block tf_backend x swish (1 # 80) (Block 1 98) 16 16 3 1 1 (1 # 4)
      (VBool true) initial_state =
      (Ok (Call (add (Name (Block 1 98) "add"))
             [Call drop
                [Call (BatchNormalization (-1) (Name (Block 1 98) "project_bn"))
                   [Call (Conv2D 16 (1, 1) 1 same false linear
                            (Name (Block 1 98) "project_conv")) [main]]];
              x]),
       State module_heap new
         [BlockCall (1 # 80) (Block 1 98) 16 16 3 1 1 (1 # 4) (VBool true)]) /\
    List.filter is_residual_layer new = [drop; add (Name (Block 1 98) "add")].
Proof.
  exact (block_residual tf_backend
           (Call (Input [Some 130; Some 130; Some 16]) []) swish (1 # 80)
           (Block 1 98) 16 16 3 1 1 (1 # 4) (VBool true) initial_state
           (fun H => ltac:(discriminate H)) (fun H => ltac:(discriminate H))).
Defined.

(** A block whose input and output widths differ builds no [add]. *)
Example block_without_skip :
  List.filter is_residual_layer
    (built (block tf_backend (Call (Input [Some 130; Some 130; Some 32]) [])
              swish (1 # 80) (Block 1 97) 32 16 3 1 1 (1 # 4) (VBool true)
              initial_state).2) = [].
Proof. reflexivity. Qed.




(** ** The heap: what the builder leaves alone *)

Lemma extends_refl n s : extends n s s.
Proof. split; [reflexivity | lia]. Qed.

Lemma extends_trans n s1 s2 s3 :
  extends n s1 s2 -> extends n s2 s3 -> extends n s1 s3.
Proof. intros [H1 L1] [H2 L2]. split; [congruence | lia]. Qed.

Lemma keeps_ret n {A} (a : A) : keeps n (ret a).
Proof. intros s r s' _ [= <- <-]. apply extends_refl. Qed.

Lemma keeps_raise n {A} e : keeps n (@raise A e).
Proof. intros s r s' _ [= <- <-]. apply extends_refl. Qed.

Lemma keeps_lift n {A} (r : result A) : keeps n (lift r).
Proof. intros s r' s' _ [= <- <-]. apply extends_refl. Qed.

Lemma extends_same_heap n s s' : heap s' = heap s -> extends n s s'.
Proof. intros H. unfold extends. rewrite H. split; [reflexivity | lia]. Qed.

Lemma keeps_call n l ts : keeps n (call l ts).
Proof. intros s r s' _ [= <- <-]. now apply extends_same_heap. Qed.

Lemma keeps_enter n c : keeps n (enter c).
Proof. intros s r s' _ [= <- <-]. now apply extends_same_heap. Qed.

Lemma keeps_load n l : keeps n (load l).
Proof.
  intros s r s' _. unfold load.
  destruct (heap s !! l); intros [= <- <-]; apply extends_refl.
Qed.

Lemma keeps_store n l d : (n <= l)%nat -> keeps n (store l d).
Proof.
  intros Hl s r s' _ [= <- <-]. split; cbn.
  - now apply take_insert_ge.
  - now rewrite length_insert.
Qed.

Lemma keeps_alloc n d : keeps n (alloc d).
Proof.
  intros s r s' Hn [= <- <-]. split; cbn.
  - now rewrite take_app_le.
  - rewrite length_app. lia.
Qed.

Lemma keeps_bind n {A B} (m : M A) (k : A -> M B) :
  keeps n m -> (forall a, keeps n (k a)) -> keeps n (bind m k).
Proof.
  intros Hm Hk s r s' Hn. unfold bind.
  destruct (m s) as [[a|e] s1] eqn:E; intros H.
  - pose proof (Hm _ _ _ Hn E) as H1.
    eapply extends_trans; [exact H1 |].
    eapply Hk; [| exact H]. destruct H1. lia.
  - injection H as <- <-. eapply Hm; eauto.
Qed.

(** The same, when the continuation is safe only on what [m] returns. *)
Lemma keeps_bind_post n {A B} (m : M A) (k : A -> M B) (P : A -> Prop) :
  keeps n m ->
  (forall s a s', (n <= length (heap s))%nat -> m s = (Ok a, s') -> P a) ->
  (forall a, P a -> keeps n (k a)) ->
  keeps n (bind m k).
Proof.
  intros Hm HP Hk s r s' Hn. unfold bind.
  destruct (m s) as [[a|e] s1] eqn:E; intros H.
  - pose proof (Hm _ _ _ Hn E) as H1.
    eapply extends_trans; [exact H1 |].
    eapply Hk; [eapply HP; eauto | | exact H]. destruct H1. lia.
  - injection H as <- <-. eapply Hm; eauto.
Qed.

Lemma keeps_for_each n {A S} (xs : list A) (body : A -> S -> M S) acc :
  Forall (fun v => forall acc, keeps n (body v acc)) xs ->
  keeps n (for_each xs body acc).
Proof.
  intros H. revert acc. induction H as [|v xs Hv _ IH]; intros acc; cbn.
  - apply keeps_ret.
  - apply keeps_bind; [apply Hv | exact IH].
Qed.

Create HintDb keeps.
#[local] Hint Resolve keeps_ret keeps_raise keeps_lift keeps_call keeps_enter
  keeps_load keeps_store keeps_alloc : keeps.

(** One step through a computation built from the primitives. *)
Ltac keeps_step :=
  match goal with
  | |- keeps _ (bind _ _) => apply keeps_bind; [| intros]
  | |- keeps _ (if ?b then _ else _) => destruct b
  | |- keeps _ (match ?x with _ => _ end) => destruct x
  | |- keeps _ _ => solve [auto with keeps]
  end.

Lemma keeps_getitem n l key : keeps n (getitem l key).
Proof. unfold getitem. repeat keeps_step. Qed.

Lemma keeps_setitem n l key v : (n <= l)%nat -> keeps n (setitem l key v).
Proof. intros. unfold setitem. repeat keeps_step. Qed.

Lemma keeps_pop n l key : (n <= l)%nat -> keeps n (pop l key).
Proof. intros. unfold pop. repeat keeps_step. Qed.

Lemma keeps_truediv n x y : keeps n (truediv x y).
Proof. unfold truediv. repeat keeps_step. Qed.

Lemma keeps_kw_int n args key dflt : keeps n (kw_int args key dflt).
Proof. unfold kw_int. repeat keeps_step. Qed.

#[local] Hint Resolve keeps_getitem keeps_setitem keeps_pop keeps_truediv
  keeps_kw_int : keeps.

Lemma keeps_block n K x act drop_rate name fi fo ks st er se id_skip :
  keeps n (block K x act drop_rate name fi fo ks st er se id_skip).
Proof. unfold block. repeat keeps_step. Qed.

#[local] Hint Resolve keeps_block : keeps.

Lemma keeps_block_kw n K x act drop_rate name l :
  keeps n (block_kw K x act drop_rate name l).
Proof. unfold block_kw. repeat keeps_step. Qed.

#[local] Hint Resolve keeps_block_kw : keeps.

Lemma keeps_build_block n K p blocks i l j xb :
  (n <= l)%nat -> keeps n (build_block K p blocks i l j xb).
Proof. intros. unfold build_block. repeat keeps_step. Qed.

Lemma keeps_build_stage n K p blocks i l xb :
  (n <= l)%nat -> keeps n (build_stage K p blocks (i, l) xb).
Proof.
  intros. unfold build_stage. repeat keeps_step.
  apply keeps_for_each, Forall_forall. intros j _ acc.
  now apply keeps_build_block.
Qed.

Lemma keeps_sum_repeats n ls acc : keeps n (sum_repeats ls acc).
Proof. revert acc. induction ls; intros; cbn; repeat keeps_step. Qed.

Lemma deepcopy_from_fresh n memo ls s r s' :
  (n <= length (heap s))%nat ->
  map_Forall (fun _ l' => (n <= l')%nat) memo ->
  deepcopy_from memo ls s = (r, s') ->
  extends n s s' /\
  forall ls', r = Ok ls' -> Forall (fun l' => (n <= l')%nat) ls'.
Proof.
  revert memo s r s'. induction ls as [|l ls IH]; intros memo s r s' Hn Hmemo.
  - cbn. intros [= <- <-]. split; [apply extends_refl |].
    intros ls' [= <-]. constructor.
  - cbn. destruct (memo !! l) as [l'|] eqn:El.
    + unfold bind.
      destruct (deepcopy_from memo ls s) as [[ls1|e] s1] eqn:E;
        destruct (IH _ _ _ _ Hn Hmemo E) as [Hext Hfresh];
        intros [= <- <-]; (split; [exact Hext |]).
      * intros ls' [= <-]. constructor; [| now apply Hfresh].
        exact (Hmemo _ _ El).
      * discriminate.
    + unfold bind at 1. unfold load.
      destruct (heap s !! l) as [d|]; cbn.
      2: { intros [= <- <-]. split; [apply extends_refl | discriminate]. }
      unfold bind.
      destruct (deepcopy_from _ ls _) as [[ls1|e] s1] eqn:E.
      * apply IH in E; cbn.
        -- destruct E as [[Ht Hl] Hfresh]. cbn in Ht, Hl.
           intros [= <- <-]. split.
           ++ split.
              ** rewrite Ht. now apply take_app_le.
              ** rewrite length_app in Hl. lia.
           ++ intros ls' [= <-]. constructor; [exact Hn | now apply Hfresh].
        -- rewrite length_app. lia.
        -- apply map_Forall_insert_2; [exact Hn | exact Hmemo].
      * apply IH in E; cbn.
        -- destruct E as [[Ht Hl] _]. cbn in Ht, Hl.
           intros [= <- <-]. split; [| discriminate]. split.
           ++ rewrite Ht. now apply take_app_le.
           ++ rewrite length_app in Hl. lia.
        -- rewrite length_app. lia.
        -- apply map_Forall_insert_2; [exact Hn | exact Hmemo].
Qed.

Lemma keeps_deepcopy n ls : keeps n (deepcopy ls).
Proof.
  intros s r s' Hn H. unfold deepcopy in H.
  eapply deepcopy_from_fresh in H; [apply H | exact Hn |].
  apply map_Forall_empty.
Qed.

Lemma Forall_zip_snd {A B} (P : B -> Prop) (xs : list A) (ys : list B) :
  Forall P ys -> Forall (fun xy => P xy.2) (zip xs ys).
Proof.
  intros H. revert xs. induction H as [|y ys Hy _ IH]; intros [|x xs]; cbn;
    constructor; auto.
Qed.

Lemma keeps_EfficientNet n K W p : keeps n (EfficientNet K W p).
Proof.
  unfold EfficientNet, check_arguments.
  repeat match goal with
         | |- keeps _ (bind (deepcopy _) _) =>
             apply (keeps_bind_post _ _ _ (Forall (fun l' => (n <= l')%nat)));
             [ apply keeps_deepcopy
             | intros s0 ls' s1 Hn0 Hcopy;
               eapply deepcopy_from_fresh in Hcopy;
               [ now apply Hcopy | exact Hn0 | apply map_Forall_empty ]
             | intros blocks_args' Hfresh ]
         | |- keeps _ (bind (sum_repeats _ _) _) =>
             apply keeps_bind; [apply keeps_sum_repeats | intros]
         | |- keeps _ (bind (for_each _ _ _) _) =>
             apply keeps_bind;
             [ apply keeps_for_each;
               eapply Forall_impl;
               [ apply (Forall_zip_snd (fun l' => (n <= l')%nat)); exact Hfresh
               | intros [i l] Hl acc; now apply keeps_build_stage ]
             | intros ]
         | _ => keeps_step
         end.
Qed.

(** C10.  [EfficientNet] works on a deep copy of [blocks_args]: whatever
    the arguments and however the call ends, every object the heap held
    at the call is unchanged after it (the heap has only grown), so every
    stage dict of the caller's table keeps its keys and values. *)
Theorem blocks_args_unchanged (K : Backend) (W : World) (p : Params)
    (s : state) :
  heap s `prefix_of` heap (EfficientNet K W p s).2 /\
  (forall l d, heap s !! l = Some d ->
               heap (EfficientNet K W p s).2 !! l = Some d).
Proof.
  destruct (EfficientNet K W p s) as [r s'] eqn:E. cbn.
  destruct (keeps_EfficientNet (length (heap s)) K W p s r s'
              (le_n _) E) as [Ht _].
  rewrite firstn_all in Ht.
  assert (Hpre : heap s `prefix_of` heap s').
  { exists (drop (length (heap s)) (heap s')).
    rewrite <- Ht at 1. symmetry. apply take_drop. }
  split; [exact Hpre |].
  intros l d Hl. eapply prefix_lookup_Some; eauto.
Qed.

(** The table of the module after a build of B2: as the module made it. *)
Example default_table_unchanged :
  take 7 (heap (EfficientNetB2 tf_backend bare_world true (Some "imagenet")
                  None None None 1000 initial_state).2) =
  DEFAULT_BLOCKS_ARGS_dicts.
Proof. reflexivity. Qed.

(** The copy of its first stage, eighth object of the heap, has lost
    [repeats] and has had [filters_in] and [strides] overwritten. *)
Example copy_is_mutated :
  heap (EfficientNetB2 tf_backend bare_world true (Some "imagenet")
          None None None 1000 initial_state).2 !! 7%nat =
  Some (block_dict 3 16 16 1 true 1 (25 # 100)).
Proof. reflexivity. Qed.

(** Without the copy the table would not survive: the body of the loop,
    run on the first dict of the table itself, pops its [repeats]. *)
Example loop_mutates_its_dict :
  heap (build_stage tf_backend
          (variant 1 1 224 (2 # 10) "efficientnet-b0" true None None None None
             1000)
          16 (0, 0%nat) (Call (Input [Some 224; Some 224; Some 3]) [], 0)
          initial_state).2 !! 0%nat =
  Some (block_dict 3 32 16 1 true 1 (25 # 100)).
Proof. reflexivity. Qed.

(** ** The loops of the assembler *)

Section BlockDict.
Variables (ks fi fo er : Z) (sk : bool) (st : Z) (se : Q).

Lemma block_dict_keywords :
  forallb (fun k => bool_decide (k ∈ block_keywords))
    (map_to_list (block_dict ks fi fo er sk st se)).*1 = true.
Proof. reflexivity. Qed.

Lemma block_dict_next :
  <["filters_in" := VInt fo]>
    (<["strides" := VInt 1]> (block_dict ks fi fo er sk st se)) =
  block_dict ks fo fo er sk 1 se.
Proof. reflexivity. Qed.

Lemma stage_dict_scaled (r fi' fo' : Z) :
  delete "repeats"
    (<["filters_out" := VInt fo']>
       (<["filters_in" := VInt fi']> (stage_dict ks r fi fo er sk st se))) =
  block_dict ks fi' fo' er sk st se.
Proof. reflexivity. Qed.

End BlockDict.

Lemma getitem_run l key s d v :
  heap s !! l = Some d -> d !! key = Some v -> getitem l key s = (Ok v, s).
Proof.
  intros Hl Hk. unfold getitem, bind, load. rewrite Hl, Hk. reflexivity.
Qed.

Lemma setitem_run l key v s d :
  heap s !! l = Some d ->
  setitem l key v s =
    (Ok tt, State (<[l := <[key := v]> d]> (heap s)) (built s) (block_calls s)).
Proof. intros Hl. unfold setitem, bind, load. rewrite Hl. reflexivity. Qed.

Lemma pop_run l key s d v :
  heap s !! l = Some d -> d !! key = Some v ->
  pop l key s =
    (Ok v, State (<[l := delete key d]> (heap s)) (built s) (block_calls s)).
Proof. intros Hl Hk. unfold pop, bind, load. rewrite Hl, Hk. reflexivity. Qed.

Lemma heap_insert_lookup (h : list (gmap string pyval)) l d d' :
  h !! l = Some d -> <[l := d']> h !! l = Some d'.
Proof.
  intros H. apply list_lookup_insert_eq. eapply lookup_lt_Some; eauto.
Qed.

(** [block(..., **args)] on a dict of the loop is [block] on its values. *)
Lemma block_kw_run K x act drop_rate name l s ks fi fo er sk st se :
  heap s !! l = Some (block_dict ks fi fo er sk st se) ->
  block_kw K x act drop_rate name l s =
  block K x act drop_rate name fi fo ks st er se (VBool sk) s.
Proof.
  intros Hl. unfold block_kw, bind at 1, load. rewrite Hl.
  rewrite block_dict_keywords. reflexivity.
Qed.

Lemma truediv_run x y s :
  Qeq_bool y 0 = false -> truediv x y s = (Ok (x / y)%Q, s).
Proof. intros H. unfold truediv. rewrite H. reflexivity. Qed.

(** One pass through the body of the inner loop. *)
Lemma build_block_run K p blocks i l j x b s ks fi fo er sk st se :
  heap s !! l = Some (block_dict ks fi fo er sk st se) ->
  Qeq_bool blocks 0 = false ->
  backend K <> theano ->
  (j <= 0 -> st = 2 ->
   pads K x (activation_fn p) (Block (i + 1) (j + 97)) fi ks er) ->
  exists x' new,
    build_block K p blocks i l j (x, b) s =
      (Ok (x', b + 1),
       State (if 0 <? j
              then <[l := block_dict ks fo fo er sk 1 se]> (heap s)
              else heap s)
         (built s ++ new)
         (block_calls s ++
            [stage_call p blocks i j b ks (if 0 <? j then fo else fi) fo er sk
               (if 0 <? j then 1 else st) se])).
Proof.
  intros Hl Hblocks Hbackend Hpads. unfold build_block.
  destruct (Z.ltb_spec 0 j) as [Hj|Hj].
  - (* a later block of the stage *)
    rewrite (bind_ok _ _ s tt
               (State (<[l := block_dict ks fo fo er sk 1 se]> (heap s))
                  (built s) (block_calls s))).
    2: { unfold bind.
         rewrite (setitem_run l "strides" (VInt 1) s _ Hl). cbv beta iota.
         erewrite (getitem_run _ "filters_out" _ _ (VInt fo));
           [| cbn [heap]; eapply heap_insert_lookup; exact Hl | reflexivity].
         cbv beta iota.
         erewrite setitem_run
           by (cbn [heap]; eapply heap_insert_lookup; exact Hl).
         cbn [heap built block_calls].
         rewrite list_insert_insert_eq, block_dict_next. reflexivity. }
    erewrite bind_ok by (apply truediv_run; exact Hblocks).
    set (s1 := State _ _ _).
    assert (Hl1 : heap s1 !! l = Some (block_dict ks fo fo er sk 1 se)).
    { cbn. eapply heap_insert_lookup; eauto. }
    destruct (block_returns K x (activation_fn p)
                (drop_connect_rate p * inject_Z b / blocks)%Q
                (Block (i + 1) (j + 97)) fo fo ks 1 er se (VBool sk) s1
                Hbackend ltac:(discriminate)) as (x' & new & Hrun).
    exists x', new.
    erewrite bind_ok by (rewrite (block_kw_run _ _ _ _ _ _ _ _ _ _ _ _ _ _ Hl1);
                         exact Hrun).
    reflexivity.
  - (* the first block *)
    rewrite (bind_ok _ _ s tt s) by reflexivity.
    erewrite bind_ok by (apply truediv_run; exact Hblocks).
    destruct (block_returns K x (activation_fn p)
                (drop_connect_rate p * inject_Z b / blocks)%Q
                (Block (i + 1) (j + 97)) fi fo ks st er se (VBool sk) s
                Hbackend (Hpads Hj)) as (x' & new & Hrun).
    exists x', new.
    erewrite bind_ok by (rewrite (block_kw_run _ _ _ _ _ _ _ _ _ _ _ _ _ _ Hl);
                         exact Hrun).
    destruct s; reflexivity.
Qed.

(** The later blocks of a stage: every one is called with [strides = 1]
    and [filters_in = filters_out]. *)
Lemma stage_tail K p blocks i l ks fo er sk se js :
  Qeq_bool blocks 0 = false ->
  backend K <> theano ->
  Forall (fun j => 0 < j) js ->
  forall x b s fi st,
    heap s !! l = Some (block_dict ks fi fo er sk st se) ->
    exists x' s',
      for_each js (build_block K p blocks i l) (x, b) s =
        (Ok (x', b + Z.of_nat (length js)), s') /\
      block_calls s' =
        block_calls s ++
        imap (fun k j =>
                stage_call p blocks i j (b + Z.of_nat k) ks fo fo er sk 1 se)
          js /\
      (heap s' = heap s \/
       heap s' = <[l := block_dict ks fo fo er sk 1 se]> (heap s)).
Proof.
  intros Hblocks Hbackend Hjs.
  induction Hjs as [|j js Hj _ IH]; intros x b s fi st Hl.
  - exists x, s. cbn. rewrite Z.add_0_r, app_nil_r. auto.
  - destruct (build_block_run K p blocks i l j x b s ks fi fo er sk st se
                Hl Hblocks Hbackend ltac:(lia)) as (x1 & new & Hrun).
    destruct (Z.ltb_spec 0 j) as [_|]; [| lia].
    match type of Hrun with _ = (_, ?s') => set (s1 := s') in * end.
    assert (Hl1 : heap s1 !! l = Some (block_dict ks fo fo er sk 1 se)).
    { cbn. eapply heap_insert_lookup; eauto. }
    destruct (IH x1 (b + 1) s1 fo 1 Hl1) as (x' & s' & Hloop & Hcalls & Hheap).
    exists x', s'. split; [| split].
    + cbn [for_each]. rewrite (bind_ok _ _ _ _ _ Hrun), Hloop.
      do 2 f_equal. f_equal. cbn [length]. lia.
    + rewrite Hcalls. cbn [block_calls s1]. rewrite <- app_assoc. f_equal.
      cbn [app imap]. f_equal.
      * now rewrite Z.add_0_r.
      * apply imap_ext. intros k j' _. cbn. f_equal. lia.
    + right. destruct Hheap as [-> | ->]; cbn [heap s1]; [reflexivity |].
      apply list_insert_insert_eq.
Qed.

(** A whole stage: what [build_stage] calls [block] with. *)
Lemma build_stage_run K p blocks i l x b s ks r fi fo er sk st se fi' fo' :
  heap s !! l = Some (stage_dict ks r fi fo er sk st se) ->
  0 < r ->
  round_filters (width_coefficient p) (depth_divisor p) fi = Ok fi' ->
  round_filters (width_coefficient p) (depth_divisor p) fo = Ok fo' ->
  Qeq_bool blocks 0 = false ->
  backend K <> theano ->
  (st = 2 -> pads K x (activation_fn p) (Block (i + 1) 97) fi' ks er) ->
  let n := round_repeats (depth_coefficient p) r in
  exists x' s',
    build_stage K p blocks (i, l) (x, b) s = (Ok (x', b + Z.max 0 n), s') /\
    block_calls s' =
      block_calls s ++
      imap (fun k j =>
              stage_call p blocks i j (b + Z.of_nat k) ks
                (if 0 <? j then fo' else fi') fo' er sk
                (if 0 <? j then 1 else st) se)
        (seqZ 0 n) /\
    heap s' = <[l := heap s' !!! l]> (heap s).
Proof.
  intros Hl Hr Hfi Hfo Hblocks Hbackend Hpads n. unfold build_stage.
  erewrite (bind_ok _ _ s (VInt r) s)
    by (eapply getitem_run; [exact Hl | reflexivity]).
  rewrite (bind_ok _ _ s r s) by reflexivity.
  destruct (Z.ltb_spec 0 r) as [_|]; [cbn [negb] | lia].
  erewrite (bind_ok _ _ s (VInt fi) s)
    by (eapply getitem_run; [exact Hl | reflexivity]).
  rewrite (bind_ok _ _ s fi s) by reflexivity.
  rewrite (bind_ok _ _ s fi' s) by (unfold lift; now rewrite Hfi).
  erewrite bind_ok by (eapply setitem_run; exact Hl).
  set (d1 := <["filters_in" := VInt fi']> (stage_dict ks r fi fo er sk st se)).
  set (s1 := State _ _ _).
  assert (Hl1 : heap s1 !! l = Some d1)
    by (cbn; eapply heap_insert_lookup; eauto).
  erewrite (bind_ok _ _ s1 (VInt fo) s1)
    by (eapply getitem_run; [exact Hl1 | reflexivity]).
  rewrite (bind_ok _ _ s1 fo s1) by reflexivity.
  rewrite (bind_ok _ _ s1 fo' s1) by (unfold lift; now rewrite Hfo).
  erewrite bind_ok by (eapply setitem_run; exact Hl1).
  set (d2 := <["filters_out" := VInt fo']> d1).
  set (s2 := State _ _ _).
  assert (Hl2 : heap s2 !! l = Some d2)
    by (cbn; eapply heap_insert_lookup; eauto).
  erewrite (bind_ok _ _ s2 (VInt r))
    by (eapply pop_run; [exact Hl2 | reflexivity]).
  set (s3 := State _ _ _).
  rewrite (bind_ok _ _ s3 r s3) by reflexivity.
  assert (Hl3 : heap s3 !! l = Some (block_dict ks fi' fo' er sk st se)).
  { cbn. erewrite heap_insert_lookup by exact Hl2. reflexivity. }
  assert (Hh3 : forall d, <[l := d]> (heap s3) = <[l := d]> (heap s)).
  { intros d. cbn. now rewrite !list_insert_insert_eq. }
  fold n. destruct (Z.le_gt_cases n 0) as [Hn|Hn].
  - rewrite seqZ_nil by exact Hn. cbn [for_each imap].
    exists x, s3. split; [| split].
    + unfold ret. do 2 f_equal. f_equal. lia.
    + now rewrite app_nil_r.
    + rewrite <- Hh3. symmetry. apply list_insert_id.
      apply list_lookup_lookup_total_lt. eapply lookup_lt_Some; eauto.
  - rewrite seqZ_cons by exact Hn. cbn [for_each imap].
    destruct (build_block_run K p blocks i l 0 x b s3 ks fi' fo' er sk st se
                Hl3 Hblocks Hbackend (fun _ => Hpads)) as (x1 & new & Hrun).
    cbn [Z.ltb Z.compare] in Hrun.
    rewrite (bind_ok _ _ _ _ _ Hrun).
    match type of Hrun with _ = (_, ?s') => set (s4 := s') in * end.
    destruct (stage_tail K p blocks i l ks fo' er sk se
                (seqZ (Z.succ 0) (Z.pred n)) Hblocks Hbackend) with
      (x := x1) (b := b + 1) (s := s4) (fi := fi') (st := st)
      as (x' & s' & Hloop & Hcalls & Hheap).
    { apply Forall_forall. intros j Hj. apply elem_of_seqZ in Hj. lia. }
    { exact Hl3. }
    exists x', s'. split; [| split].
    + rewrite Hloop. do 2 f_equal. f_equal. rewrite length_seqZ. lia.
    + rewrite Hcalls. cbn [block_calls s4]. rewrite <- app_assoc. f_equal.
      cbn [app]. f_equal.
      * now rewrite Z.add_0_r.
      * apply imap_ext. intros k j Hj. cbn.
        apply lookup_seqZ in Hj. destruct (Z.ltb_spec 0 j); [| lia].
        f_equal. lia.
    + assert (Hlen : (l < length (heap s))%nat)
        by (eapply lookup_lt_Some; eauto).
      destruct Hheap as [-> | ->]; cbn [heap s4].
      * rewrite <- Hh3. symmetry. apply list_insert_id.
        apply list_lookup_lookup_total_lt. cbn. now rewrite !length_insert.
      * rewrite Hh3. f_equal.
        rewrite list_lookup_total_insert_eq; [reflexivity | exact Hlen].
Qed.

(** C4 (as amended).  In the body loop, a stage whose dict is a table
    entry builds [round_repeats(repeats)] blocks, named after the stage and
    the block's letter; the first is called with the blueprint's [strides]
    and the width-scaled [filters_in] ([round_filters] of the blueprint's),
    every later one with [strides = 1] and [filters_in = filters_out], the
    scaled [filters_out] being the same for all. *)
Theorem stage_blocks (K : Backend) (p : Params) (blocks : Q) (i : Z)
    (l : nat) (x : tensor) (b : Z) (s : state)
    (ks r fi fo er : Z) (sk : bool) (st : Z) (se : Q) (fi' fo' : Z) :
  heap s !! l = Some (stage_dict ks r fi fo er sk st se) ->
  0 < r ->
  round_filters (width_coefficient p) (depth_divisor p) fi = Ok fi' ->
  round_filters (width_coefficient p) (depth_divisor p) fo = Ok fo' ->
  Qeq_bool blocks 0 = false ->
  backend K <> theano ->
  (st = 2 -> pads K x (activation_fn p) (Block (i + 1) 97) fi' ks er) ->
  exists x' s' new,
    build_stage K p blocks (i, l) (x, b) s =
      (Ok (x', b + Z.max 0 (round_repeats (depth_coefficient p) r)), s') /\
    block_calls s' = block_calls s ++ new /\
    length new = Z.to_nat (round_repeats (depth_coefficient p) r) /\
    forall k c, new !! k = Some c ->
      call_name c = Block (i + 1) (Z.of_nat k + 97) /\
      call_filters_out c = fo' /\
      (k = 0%nat -> call_strides c = st /\ call_filters_in c = fi') /\
      (k <> 0%nat ->
       call_strides c = 1 /\ call_filters_in c = call_filters_out c).
Proof.
  intros Hl Hr Hfi Hfo Hblocks Hbackend Hpads.
  destruct (build_stage_run K p blocks i l x b s ks r fi fo er sk st se fi' fo'
              Hl Hr Hfi Hfo Hblocks Hbackend Hpads)
    as (x' & s' & Hrun & Hcalls & _).
  eexists x', s', _. split; [exact Hrun |]. split; [exact Hcalls |]. split.
  - now rewrite length_imap, length_seqZ.
  - intros k c Hk. rewrite list_lookup_imap in Hk.
    destruct (seqZ 0 _ !! k) as [j|] eqn:Hj; [| discriminate].
    apply lookup_seqZ in Hj. destruct Hj as [-> _].
    injection Hk as <-. cbn.
    split; [f_equal; lia |]. split; [reflexivity |].
    split; intros Hk0.
    + subst k. cbn. auto.
    + destruct (Z.ltb_spec 0 (0 + Z.of_nat k)); [auto | lia].
Qed.

Lemma stage_blocks_witness :
  exists x' s' new,
    build_stage tf_backend
      (variant (11 # 10) (12 # 10) 260 (3 # 10) "efficientnet-b2" true None
         None None None 1000)
      16 (3, 3%nat) (Call (Input [Some 33; Some 33; Some 48]) [], 8)
      initial_state = (Ok (x', 8 + 4), s') /\
    block_calls s' = new /\
    length new = 4%nat /\
    forall k c, new !! k = Some c ->
      call_name c = Block 4 (Z.of_nat k + 97) /\
      call_filters_out c = 88 /\
      (k = 0%nat -> call_strides c = 2 /\ call_filters_in c = 48) /\
      (k <> 0%nat ->
       call_strides c = 1 /\ call_filters_in c = call_filters_out c).
Proof.
  exact (stage_blocks tf_backend
           (variant (11 # 10) (12 # 10) 260 (3 # 10) "efficientnet-b2" true
              None None None None 1000)
           16 3 3%nat (Call (Input [Some 33; Some 33; Some 48]) []) 8
           initial_state 3 3 40 80 6 true 2 (25 # 100) 48 88
           eq_refl eq_refl eq_refl eq_refl eq_refl
           (fun H => ltac:(discriminate H))
           (fun _ => ex_intro _ ((1, 1), (1, 1)) eq_refl)).
Defined.

(** C4, as stated, fails on "unscaled": in B2 the first block of stage 4
    is called with [filters_in = 48], the table's 40 scaled by
    [round_filters]. *)
Lemma first_block_filters_in_scaled :
  (fun c => (call_name c, call_filters_in c)) <$>
    block_calls (EfficientNetB2 tf_backend bare_world true (Some "imagenet")
                   None None None 1000 initial_state).2 !! 8%nat =
    Some (Block 4 97, 48) /\
  DEFAULT_BLOCKS_ARGS_dicts !! 3%nat =
    Some (stage_dict 3 3 40 80 6 true 2 (25 # 100)).
Proof. split; reflexivity. Qed.

(** ** The drop rates of the blocks *)

(** C1.  The builder divides the block counter by the sum of the table's
    [repeats], not by the number of blocks it builds.  For B2, as the
    script of the module builds it, 23 blocks are built and the sum is 16:
    block [k] gets [0.2 * k / 16], the first 0, and the last 0.275, above
    [drop_connect_rate] itself and not the [0.2 * 22 / 23] of the
    specification. *)
Theorem B2_drop_rates :
  let calls :=
    block_calls (EfficientNetB2 tf_backend bare_world true (Some "imagenet")
                   None None None 1000 initial_state).2 in
  length calls = 23%nat /\
  scaled_block_count (12 # 10) DEFAULT_BLOCKS_ARGS_dicts = 23 /\
  table_block_count DEFAULT_BLOCKS_ARGS_dicts = 16 /\
  Forall2 (fun c k => call_drop_rate c == (2 # 10) * inject_Z k / 16)
    calls (seqZ 0 23) /\
  exists c, last calls = Some c /\
            call_drop_rate c == 275 # 1000 /\
            ~ call_drop_rate c == (2 # 10) * (22 # 23) /\
            (2 # 10 < call_drop_rate c)%Q.
Proof.
  cbv zeta. split; [reflexivity |]. split; [reflexivity |].
  split; [reflexivity |]. split.
  - vm_compute. repeat constructor.
  - eexists. split; [vm_compute; reflexivity |]. vm_compute.
    split; [reflexivity |]. split; [discriminate | reflexivity].
Qed.

(** At [depth_coefficient = 1] the two counts agree, and the rates are the
    specification's: B0 builds 16 blocks with rates [0.2 * k / 16]. *)
Example B0_drop_rates :
  Forall2 (fun c k => call_drop_rate c == (2 # 10) * inject_Z k / 16)
    (block_calls (EfficientNetB0 tf_backend bare_world true None None None
                    None 1000 initial_state).2)
    (seqZ 0 (scaled_block_count 1 DEFAULT_BLOCKS_ARGS_dicts)).
Proof. vm_compute. repeat constructor. Qed.

(** B7 builds 55 blocks; the last is called with [0.2 * 54 / 16 = 0.675]. *)
Example B7_last_drop_rate :
  (exists c,
     last (block_calls (EfficientNetB7 tf_backend bare_world true None None
                          None None 1000 initial_state).2) = Some c /\
     call_drop_rate c == 675 # 1000) /\
  scaled_block_count (31 # 10) DEFAULT_BLOCKS_ARGS_dicts = 55.
Proof.
  split; [| reflexivity].
  eexists. split; [vm_compute; reflexivity | reflexivity].
Qed.

(** ** The [ValueError]s of the builder *)

Lemma no_ValueError_ret {A} (a : A) : no_ValueError (ret a).
Proof. intros s. reflexivity. Qed.

Lemma no_ValueError_raise {A} e :
  is_ValueError (@Raise A e) = false -> no_ValueError (@raise A e).
Proof. intros H s. exact H. Qed.

Lemma no_ValueError_lift {A} (r : result A) :
  is_ValueError r = false -> no_ValueError (lift r).
Proof. intros H s. exact H. Qed.

Lemma no_ValueError_call l ts : no_ValueError (call l ts).
Proof. intros s. reflexivity. Qed.

Lemma no_ValueError_enter c : no_ValueError (enter c).
Proof. intros s. reflexivity. Qed.

Lemma no_ValueError_load l : no_ValueError (load l).
Proof. intros s. unfold load. destruct (heap s !! l); reflexivity. Qed.

Lemma no_ValueError_store l d : no_ValueError (store l d).
Proof. intros s. reflexivity. Qed.

Lemma no_ValueError_alloc d : no_ValueError (alloc d).
Proof. intros s. reflexivity. Qed.

Lemma no_ValueError_bind {A B} (m : M A) (k : A -> M B) :
  no_ValueError m -> (forall a, no_ValueError (k a)) ->
  no_ValueError (bind m k).
Proof.
  intros Hm Hk s. unfold bind. specialize (Hm s).
  destruct (m s) as [[a|e] s1]; [apply Hk | exact Hm].
Qed.

Lemma no_ValueError_for_each {A S} (xs : list A) (body : A -> S -> M S) acc :
  (forall v acc, no_ValueError (body v acc)) ->
  no_ValueError (for_each xs body acc).
Proof.
  intros H. revert acc. induction xs as [|v xs IH]; intros acc; cbn.
  - apply no_ValueError_ret.
  - apply no_ValueError_bind; [apply H | exact IH].
Qed.

Lemma as_int_no_ValueError v : is_ValueError (as_int v) = false.
Proof. destruct v; reflexivity. Qed.

Lemma round_filters_no_ValueError w d f :
  is_ValueError (round_filters w d f) = false.
Proof. unfold round_filters. destruct (d =? 0); reflexivity. Qed.

Lemma correct_pad_no_ValueError K t k :
  is_ValueError (correct_pad K t k) = false.
Proof.
  unfold correct_pad.
  destruct (take 2 _ !! 0%nat) as [[s0|]|]; try reflexivity.
  destruct (take 2 _ !! 1%nat) as [[s1|]|]; reflexivity.
Qed.

Create HintDb quiet.
#[local] Hint Resolve no_ValueError_ret no_ValueError_call no_ValueError_enter
  no_ValueError_load no_ValueError_store no_ValueError_alloc
  as_int_no_ValueError round_filters_no_ValueError correct_pad_no_ValueError
  : quiet.

Ltac quiet_step :=
  match goal with
  | |- no_ValueError (bind _ _) => apply no_ValueError_bind; [| intros]
  | |- no_ValueError (raise _) => apply no_ValueError_raise; reflexivity
  | |- no_ValueError (lift _) => apply no_ValueError_lift; auto with quiet
  | |- no_ValueError (if ?b then _ else _) => destruct b
  | |- no_ValueError (match ?x with _ => _ end) => destruct x
  | |- no_ValueError _ => solve [auto with quiet]
  end.

Lemma no_ValueError_getitem l key : no_ValueError (getitem l key).
Proof. unfold getitem. repeat quiet_step. Qed.

Lemma no_ValueError_setitem l key v : no_ValueError (setitem l key v).
Proof. unfold setitem. repeat quiet_step. Qed.

Lemma no_ValueError_pop l key : no_ValueError (pop l key).
Proof. unfold pop. repeat quiet_step. Qed.

Lemma no_ValueError_truediv x y : no_ValueError (truediv x y).
Proof. unfold truediv. repeat quiet_step. Qed.

Lemma no_ValueError_kw_int args key dflt : no_ValueError (kw_int args key dflt).
Proof. unfold kw_int. repeat quiet_step. Qed.

#[local] Hint Resolve no_ValueError_getitem no_ValueError_setitem
  no_ValueError_pop no_ValueError_truediv no_ValueError_kw_int : quiet.

Lemma no_ValueError_block K x act drop_rate name fi fo ks st er se id_skip :
  no_ValueError (block K x act drop_rate name fi fo ks st er se id_skip).
Proof. unfold block. repeat quiet_step. Qed.

#[local] Hint Resolve no_ValueError_block : quiet.

Lemma no_ValueError_block_kw K x act drop_rate name l :
  no_ValueError (block_kw K x act drop_rate name l).
Proof. unfold block_kw. repeat quiet_step. Qed.

#[local] Hint Resolve no_ValueError_block_kw : quiet.

Lemma no_ValueError_build_block K p blocks i l j xb :
  no_ValueError (build_block K p blocks i l j xb).
Proof. unfold build_block. repeat quiet_step. Qed.

Lemma no_ValueError_build_stage K p blocks il xb :
  no_ValueError (build_stage K p blocks il xb).
Proof.
  unfold build_stage. repeat quiet_step.
  apply no_ValueError_for_each. intros. apply no_ValueError_build_block.
Qed.

Lemma no_ValueError_sum_repeats ls acc : no_ValueError (sum_repeats ls acc).
Proof. revert acc. induction ls; intros; cbn; repeat quiet_step. Qed.

Lemma no_ValueError_deepcopy_from memo ls :
  no_ValueError (deepcopy_from memo ls).
Proof. revert memo. induction ls; intros; cbn; repeat quiet_step. Qed.

#[local] Hint Resolve no_ValueError_build_stage no_ValueError_sum_repeats
  no_ValueError_deepcopy_from no_ValueError_for_each : quiet.







(** ** Further runs of the model *)

(** The rates of a stage: block [k] of the stage, the [(b + k)]-th of the
    network, is called with [drop_connect_rate * (b + k) / blocks], [blocks]
    being the divisor the builder computed before the loop. *)
Lemma stage_drop_rates K p blocks i l x b s ks r fi fo er sk st se fi' fo' :
  heap s !! l = Some (stage_dict ks r fi fo er sk st se) ->
  0 < r ->
  round_filters (width_coefficient p) (depth_divisor p) fi = Ok fi' ->
  round_filters (width_coefficient p) (depth_divisor p) fo = Ok fo' ->
  Qeq_bool blocks 0 = false ->
  backend K <> theano ->
  (st = 2 -> pads K x (activation_fn p) (Block (i + 1) 97) fi' ks er) ->
  exists new,
    block_calls (build_stage K p blocks (i, l) (x, b) s).2 =
      block_calls s ++ new /\
    forall k c, new !! k = Some c ->
      call_drop_rate c =
        (drop_connect_rate p * inject_Z (b + Z.of_nat k) / blocks)%Q.
Proof.
  intros Hl Hr Hfi Hfo Hblocks Hbackend Hpads.
  destruct (build_stage_run K p blocks i l x b s ks r fi fo er sk st se fi' fo'
              Hl Hr Hfi Hfo Hblocks Hbackend Hpads)
    as (x' & s' & Hrun & Hcalls & _).
  rewrite Hrun. eexists. split; [exact Hcalls |].
  intros k c Hk. rewrite list_lookup_imap in Hk.
  destruct (seqZ 0 _ !! k) as [j|]; [| discriminate].
  now injection Hk as <-.
Qed.


(** The end-to-end case of the specification: B0 without the top and
    without weights ends in a 7 x 7 map of 1280 channels. *)
Example B0_output_shape :
  (fun m => keras_int_shape (outputs_of m)) <$>
    match (EfficientNetB0 tf_backend bare_world false None None None None 1000
             initial_state).1 with
    | Ok m => Some m
    | Raise _ => None
    end = Some [None; Some 7; Some 7; Some 1280].
Proof. vm_compute. reflexivity. Qed.

(** B2 with its top and the 1000 classes is built: 340 layers, the
    pretrained file of the variant chosen by the last two letters of its
    name. *)
Example B2_builds :
  (weights_of <$>
     match (EfficientNetB2 tf_backend bare_world true (Some "imagenet")
              None None None 1000 initial_state).1 with
     | Ok m => Some m
     | Raise _ => None
     end) =
    Some (from_url
            "efficientnet-b2_weights_tf_dim_ordering_tf_kernels_autoaugment.h5"
            (BASE_WEIGHTS_PATH ++
             "efficientnet-b2_weights_tf_dim_ordering_tf_kernels_autoaugment.h5")
            "b6185fdcd190285d516936c09dceeaa4") /\
  length (built (EfficientNetB2 tf_backend bare_world true (Some "imagenet")
                   None None None 1000 initial_state).2) = 340%nat.
Proof. split; vm_compute; reflexivity. Qed.

(** A table that lists one dict twice: the copy keeps the two entries one
    object, the first stage pops its [repeats], the second finds none. *)
Example shared_stage_dict :
  (EfficientNet tf_backend bare_world
     {| width_coefficient := 1; depth_coefficient := 1; default_size := 224;
        dropout_rate := 2 # 10; drop_connect_rate := 2 # 10;
        depth_divisor := 8; activation_fn := swish;
        blocks_args := [0%nat; 0%nat]; model_name := "efficientnet";
        include_top := true; weights := None; input_tensor := None;
        input_shape := None; pooling := None; num_classes := 1000 |}
     initial_state).1 = Raise (KeyError "repeats").
Proof. vm_compute. reflexivity. Qed.

(** On the Theano backend the gate of [block] stops at [Lambda], a name the
    module never imports. *)
Example theano_gate :
  (block {| image_data_format := channels_last; backend := theano;
            int_shape := keras_int_shape; is_keras_tensor := fun _ => true |}
     (Call (Input [Some 112; Some 112; Some 32]) []) swish 0 NoPrefix
     32 16 3 1 1 (25 # 100) (VBool true) initial_state).1 =
  Raise (NameError "Lambda").
Proof. reflexivity. Qed.

(** ** The whole body: every call of [block] of a build *)

Lemma round_filters_scaled p f :
  depth_divisor p <> 0 ->
  round_filters (width_coefficient p) (depth_divisor p) f = Ok (scaled p f).
Proof.
  intros Hd. unfold scaled, round_filters.
  destruct (Z.eqb_spec (depth_divisor p) 0); [contradiction | reflexivity].
Qed.











Lemma bind_call {B} l ts (k : tensor -> M B) s :
  bind (call l ts) k s =
  k (Call l ts) (State (heap s) (built s ++ [l]) (block_calls s)).
Proof. reflexivity. Qed.

Lemma bind_lift_ok {A B} (r : result A) a (k : A -> M B) s :
  r = Ok a -> bind (lift r) k s = k a s.
Proof. intros ->. reflexivity. Qed.















(** ** The scaling calculator, further *)













(** ** [correct_pad], further *)

Lemma input_size_length (K : Backend) (x : tensor) :
  (length (input_size K x) <= 2)%nat.
Proof. unfold input_size. rewrite length_take. lia. Qed.

(** When [correct_pad] fails.  It raises [IndexError] when the backend's
    shape has no spatial entry, or a known first one and no second;
    [TypeError] when the first size is known and the second is not; it
    raises nothing else, and returns in the other cases: first size
    unknown (the second is not looked at), or both known. *)
Theorem correct_pad_errors (K : Backend) (x : tensor) (k : kernel_arg) :
  (correct_pad K x k = Raise IndexError <->
   input_size K x = [] \/ exists h, input_size K x = [Some h]) /\
  (correct_pad K x k = Raise TypeError <->
   exists h, input_size K x = [Some h; None]) /\
  (forall e, correct_pad K x k = Raise e -> e = IndexError \/ e = TypeError) /\
  ((exists pad, correct_pad K x k = Ok pad) <->
   (exists rest, input_size K x = None :: rest) \/
   exists h w, input_size K x = [Some h; Some w]).
Proof.
  pose proof (input_size_length K x) as Hlen.
  unfold correct_pad. fold (input_size K x).
  destruct (input_size K x) as [|[h|] [|[w|] [|? ?]]]; cbn in Hlen |- *;
    try lia.
  all: repeat split.
  all: try solve [ intros [= ] | intros [[= ]|[? [= ]]] | intros [? [= ]]
                 | intros [? [? [= ]]] | intros [[? [= ]]|[? [? [= ]]]]
                 | intros ? [= <-]; auto | intros; eauto
                 | intros ? [= ] ].
Qed.

(** The pad makes a stride-2 window sweep cover every known size alike:
    whatever the kernel, the number of window positions on the padded axis,
    [(size + before + after - kernel) // 2 + 1], is [(size + 1) // 2], the
    upper half of the size.  The tuple form of [kernel_size] is taken per
    axis, and an [int] is the tuple of two equal sizes. *)
Theorem correct_pad_halves (K : Backend) (x : tensor) (k0 k1 h w : Z) :
  input_size K x = [Some h; Some w] ->
  correct_pad K x (KInt k0) = correct_pad K x (KPair k0 k0) /\
  exists top bottom left right,
    correct_pad K x (KPair k0 k1) = Ok ((top, bottom), (left, right)) /\
    (h + top + bottom - k0) / 2 + 1 = (h + 1) / 2 /\
    (w + left + right - k1) / 2 + 1 = (w + 1) / 2.
Proof.
  intros Hsize. unfold correct_pad. fold (input_size K x). rewrite Hsize.
  split; [reflexivity |]. cbn.
  eexists _, _, _, _. split; [reflexivity |].
  split; Z.div_mod_to_equations; lia.
Qed.

Lemma correct_pad_halves_witness :
  exists top bottom left right,
    correct_pad tf_backend (Call (Input [Some 260; Some 65; Some 3]) [])
      (KPair 3 5) = Ok ((top, bottom), (left, right)) /\
    (260 + top + bottom - 3) / 2 + 1 = (260 + 1) / 2 /\
    (65 + left + right - 5) / 2 + 1 = (65 + 1) / 2.
Proof.
  exact (proj2 (correct_pad_halves tf_backend
                  (Call (Input [Some 260; Some 65; Some 3]) []) 3 5 260 65
                  eq_refl)).
Defined.

(** For a kernel of size 2 or more no pad is negative, and the pad after
    an axis exceeds the pad before it by at most one.  (A kernel of size 1
    on an even or unknown size gets the pad [(-1, 0)].) *)
Theorem correct_pad_bounds (K : Backend) (x : tensor) (k : Z)
    (top bottom left right : Z) :
  2 <= k ->
  correct_pad K x (KInt k) = Ok ((top, bottom), (left, right)) ->
  0 <= top <= bottom /\ bottom <= top + 1 /\
  0 <= left <= right /\ right <= left + 1.
Proof.
  intros Hk. unfold correct_pad. fold (input_size K x).
  destruct (input_size K x) as [|[h|] [|[w|] ?]]; cbn;
    try discriminate; intros [= <- <- <- <-];
    Z.div_mod_to_equations; lia.
Qed.

Lemma correct_pad_bounds_witness :
  correct_pad tf_backend (Call (Input [Some 260; Some 65; Some 3]) [])
    (KInt 5) = Ok ((1, 2), (2, 2)) /\
  0 <= 1 <= 2 /\ 2 <= 1 + 1 /\ 0 <= 2 <= 2 /\ 2 <= 2 + 1.
Proof.
  split; [reflexivity |].
  exact (correct_pad_bounds tf_backend
           (Call (Input [Some 260; Some 65; Some 3]) []) 5 1 2 2 2
           ltac:(lia) eq_refl).
Defined.

Example correct_pad_kernel_1 :
  correct_pad tf_backend (Call (Input [Some 260; Some 260; Some 3]) [])
    (KInt 1) = Ok ((-1, 0), (-1, 0)).
Proof. reflexivity. Qed.

(** ** [block], phase by phase *)

(** What [block] does on every input, failures included: [out] is the
    tensor it returns when it returns. *)
Lemma block_trace (K : Backend) (inputs : tensor) (act : activation)
    (drop_rate : Q) (name : prefix)
    (filters_in filters_out kernel_size strides expand_ratio : Z)
    (se_ratio : Q) (id_skip : pyval) (s : state) :
  let gated := Qltb 0 se_ratio && Qle_bool se_ratio 1 in
  let bn_axis := match image_data_format K with
                 | channels_last => -1
                 | channels_first => 1
                 end in
  let x0 := depthwise_input K inputs act name filters_in expand_ratio in
  exists new out,
    let gate := if gated
                then match backend K with
                     | theano => Raise (NameError "Lambda")
                     | _ => Ok out
                     end
                else Ok out in
    block K inputs act drop_rate name filters_in filters_out kernel_size
      strides expand_ratio se_ratio id_skip s =
      (if strides =? 2
       then match correct_pad K x0 (KInt kernel_size) with
            | Raise e => Raise e
            | Ok _ => gate
            end
       else gate,
       State (heap s) (built s ++ new)
         (block_calls s ++
            [BlockCall drop_rate name filters_in filters_out kernel_size
               strides expand_ratio se_ratio id_skip])) /\
    List.filter is_expand_layer new =
      (if expand_ratio =? 1 then []
       else [Conv2D (filters_in * expand_ratio) (1, 1) 1 same false linear
               (Name name "expand_conv");
             BatchNormalization bn_axis (Name name "expand_bn");
             Activation act (Name name "expand_activation")]) /\
    List.filter is_depthwise_layer new =
      (if strides =? 2
       then match correct_pad K x0 (KInt kernel_size) with
            | Raise e => []
            | Ok pad =>
                [ZeroPadding2D pad (Name name "dwconv_pad");
                 DepthwiseConv2D kernel_size 2 valid false (Name name "dwconv")]
            end
       else [DepthwiseConv2D kernel_size strides same false
               (Name name "dwconv")]) /\
    Forall (fun l => name_prefix <$> layer_name_of l = Some name) new /\
    sublist (omap (fun l => name_base <$> layer_name_of l) new)
      block_layer_names.
Proof.
  intros gated bn_axis x0. subst gated bn_axis x0.
  destruct s as [h b c]. unfold block, depthwise_input.
  destruct (image_data_format K);
    destruct (expand_ratio =? 1);
    (destruct (Z.eqb_spec strides 2) as [->|_];
       [ change (2 =? 1) with false; rewrite andb_false_r; cbn [andb];
         destruct (correct_pad K _ (KInt kernel_size)) as [pad|e] eqn:Hpad
       | destruct (is_True id_skip && (strides =? 1)
                   && (filters_in =? filters_out));
         [destruct (Qltb 0 drop_rate) |] ]);
    (destruct (Qltb 0 se_ratio && Qle_bool se_ratio 1);
       [destruct (backend K) |]);
    run;
    try (rewrite Hpad; run);
    first [ eexists _, _; split; [flatten_log; reflexivity |]
          | exists [], inputs; rewrite app_nil_r; split; [reflexivity |] ];
    (split; [reflexivity |]);
    (split; [reflexivity |]);
    (split;
       [ repeat (apply Forall_cons_2; [reflexivity |]); apply Forall_nil_2
       | vm_compute;
         repeat first [ apply sublist_nil_l | apply sublist_skip
                      | apply sublist_cons ] ]).
  Unshelve. all: exact inputs.
Qed.

Lemma NoDup_block_layer_names : NoDup block_layer_names.
Proof.
  unfold block_layer_names.
  repeat (apply NoDup_cons_2;
          [rewrite ?elem_of_cons, elem_of_nil; intuition discriminate |]).
  apply NoDup_nil_2.
Qed.


(** The expansion phase: the 1x1 convolution to
    [filters_in * expand_ratio] channels (no bias), its batch
    normalisation and its activation are built, in this order, when
    [expand_ratio] is not 1, and none of them when it is 1. *)
Theorem block_expansion (K : Backend) (inputs : tensor) (act : activation)
    (drop_rate : Q) (name : prefix)
    (filters_in filters_out kernel_size strides expand_ratio : Z)
    (se_ratio : Q) (id_skip : pyval) (s : state) :
  exists new,
    built (block K inputs act drop_rate name filters_in filters_out
             kernel_size strides expand_ratio se_ratio id_skip s).2 =
      built s ++ new /\
    List.filter is_expand_layer new =
      (if expand_ratio =? 1 then []
       else [Conv2D (filters_in * expand_ratio) (1, 1) 1 same false linear
               (Name name "expand_conv");
             BatchNormalization (match image_data_format K with
                                 | channels_last => -1
                                 | channels_first => 1
                                 end) (Name name "expand_bn");
             Activation act (Name name "expand_activation")]).
Proof.
  destruct (block_trace K inputs act drop_rate name filters_in filters_out
              kernel_size strides expand_ratio se_ratio id_skip s)
    as (new & out & -> & H & _).
  exists new. split; [reflexivity | exact H].
Qed.

(** The depthwise phase: with [strides = 2] the input is padded by what
    [correct_pad] returns and convolved with padding [valid]; with any
    other stride there is no padding layer and the convolution has padding
    [same].  The depthwise convolution has no bias.  When [correct_pad]
    raises, neither layer is built. *)
Theorem block_depthwise (K : Backend) (inputs : tensor) (act : activation)
    (drop_rate : Q) (name : prefix)
    (filters_in filters_out kernel_size strides expand_ratio : Z)
    (se_ratio : Q) (id_skip : pyval) (s : state) :
  exists new,
    built (block K inputs act drop_rate name filters_in filters_out
             kernel_size strides expand_ratio se_ratio id_skip s).2 =
      built s ++ new /\
    List.filter is_depthwise_layer new =
      (if strides =? 2
       then match correct_pad K (depthwise_input K inputs act name filters_in
                                   expand_ratio) (KInt kernel_size) with
            | Raise e => []
            | Ok pad =>
                [ZeroPadding2D pad (Name name "dwconv_pad");
                 DepthwiseConv2D kernel_size 2 valid false (Name name "dwconv")]
            end
       else [DepthwiseConv2D kernel_size strides same false
               (Name name "dwconv")]).
Proof.
  destruct (block_trace K inputs act drop_rate name filters_in filters_out
              kernel_size strides expand_ratio se_ratio id_skip s)
    as (new & out & -> & _ & H & _).
  exists new. split; [reflexivity | exact H].
Qed.

(** Every layer [block] builds carries the prefix [name], and no two of
    them share a name: their base names follow the order of
    [block_layer_names]. *)
Theorem block_layer_naming (K : Backend) (inputs : tensor) (act : activation)
    (drop_rate : Q) (name : prefix)
    (filters_in filters_out kernel_size strides expand_ratio : Z)
    (se_ratio : Q) (id_skip : pyval) (s : state) :
  exists new,
    built (block K inputs act drop_rate name filters_in filters_out
             kernel_size strides expand_ratio se_ratio id_skip s).2 =
      built s ++ new /\
    Forall (fun l => exists base, layer_name_of l = Some (Name name base)) new /\
    sublist (omap (fun l => name_base <$> layer_name_of l) new)
      block_layer_names /\
    NoDup (omap layer_name_of new).
Proof.
  destruct (block_trace K inputs act drop_rate name filters_in filters_out
              kernel_size strides expand_ratio se_ratio id_skip s)
    as (new & out & -> & _ & _ & Hall & Hsub).
  exists new. split; [reflexivity |].
  assert (Hnames : Forall (fun l => exists base,
                             layer_name_of l = Some (Name name base)) new).
  { eapply Forall_impl; [exact Hall |]. intros l Hl. cbn beta in Hl.
    destruct (layer_name_of l) as [[p b]|]; [| discriminate].
    injection Hl as ->. eauto. }
  split; [exact Hnames |]. split; [exact Hsub |].
  assert (Hbase : NoDup (omap (fun l => name_base <$> layer_name_of l) new)).
  { exact (sublist_NoDup _ _ NoDup_block_layer_names Hsub). }
  clear Hsub Hall. induction new as [|l new IH]; [constructor |].
  apply Forall_cons_1 in Hnames as [[base Hl] Hnames].
  cbn in Hbase |- *. rewrite Hl in Hbase |- *. cbn in Hbase.
  apply NoDup_cons in Hbase as [Hnotin Hbase].
  apply NoDup_cons. split; [| now apply IH].
  intros Hin. apply Hnotin.
  apply list_elem_of_omap in Hin as (l' & Hl' & E).
  apply list_elem_of_omap. exists l'. split; [exact Hl' |].
  rewrite E. reflexivity.
Qed.

(** ** The keywords of [block] and the stage dict, further *)

(** [block(..., **args)] with a key in [args] that is no parameter of
    [block] (as [repeats] would be, were it not popped) is a [TypeError],
    raised before anything is built. *)
Theorem block_kw_unexpected (K : Backend) (x : tensor) (act : activation)
    (drop_rate : Q) (name : prefix) (l : nat) (s : state)
    (d : gmap string pyval) (key : string) (v : pyval) :
  heap s !! l = Some d -> d !! key = Some v -> key ∉ block_keywords ->
  block_kw K x act drop_rate name l s = (Raise TypeError, s).
Proof.
  intros Hl Hk Hnot. unfold block_kw, bind, load. rewrite Hl.
  destruct (forallb _ _) eqn:E; [| reflexivity].
  exfalso. apply Is_true_true_2, forallb_True in E.
  rewrite Forall_forall in E. specialize (E key).
  apply Hnot. eapply bool_decide_unpack, E.
  apply list_elem_of_fmap. exists (key, v). split; [reflexivity |].
  now apply elem_of_map_to_list.
Qed.

Lemma block_kw_unexpected_witness :
  block_kw tf_backend (External 0) swish 0 NoPrefix 0 initial_state =
    (Raise TypeError, initial_state).
Proof.
  exact (block_kw_unexpected tf_backend (External 0) swish 0 NoPrefix 0
           initial_state (stage_dict 3 1 32 16 1 true 1 (25 # 100))
           "repeats" (VInt 1) eq_refl eq_refl
           ltac:(unfold block_keywords; rewrite !elem_of_cons, elem_of_nil;
                 intuition discriminate)).
Defined.

Lemma build_stage_no_repeats K p blocks i l xb s d :
  heap s !! l = Some d -> d !! "repeats" = None ->
  build_stage K p blocks (i, l) xb s = (Raise (KeyError "repeats"), s).
Proof.
  intros Hl Hr. unfold build_stage. destruct xb as [x b].
  unfold bind at 1, getitem, bind, load. now rewrite Hl, Hr.
Qed.

(** A stage dict without [repeats], [filters_in] or [filters_out] is a
    [KeyError] for that key.  The first two leave the dict as it was; by the
    time [filters_out] is missed, [filters_in] is already overwritten with
    its scaled value. *)
Theorem build_stage_missing_key (K : Backend) (p : Params) (blocks : Q)
    (i : Z) (l : nat) (xb : tensor * Z) (s : state) (d : gmap string pyval) :
  heap s !! l = Some d ->
  (d !! "repeats" = None ->
   build_stage K p blocks (i, l) xb s = (Raise (KeyError "repeats"), s)) /\
  (forall r, d !! "repeats" = Some (VInt r) -> 0 < r ->
   d !! "filters_in" = None ->
   build_stage K p blocks (i, l) xb s = (Raise (KeyError "filters_in"), s)) /\
  (forall r fi fi', d !! "repeats" = Some (VInt r) -> 0 < r ->
   d !! "filters_in" = Some (VInt fi) ->
   round_filters (width_coefficient p) (depth_divisor p) fi = Ok fi' ->
   d !! "filters_out" = None ->
   build_stage K p blocks (i, l) xb s =
     (Raise (KeyError "filters_out"),
      State (<[l := <["filters_in" := VInt fi']> d]> (heap s)) (built s)
        (block_calls s))).
Proof.
  intros Hl. unfold build_stage. destruct xb as [x b].
  split; [| split].
  - intros Hr. now apply (build_stage_no_repeats K p blocks i l (x, b) s d).
  - intros r Hr Hpos Hfi.
    erewrite (bind_ok _ _ s (VInt r) s)
      by (eapply getitem_run; [exact Hl | exact Hr]).
    rewrite (bind_ok _ _ s r s) by reflexivity.
    destruct (Z.ltb_spec 0 r) as [_|]; [cbn [negb] | lia].
    unfold bind at 1, getitem, bind, load. now rewrite Hl, Hfi.
  - intros r fi fi' Hr Hpos Hfi Hround Hfo.
    erewrite (bind_ok _ _ s (VInt r) s)
      by (eapply getitem_run; [exact Hl | exact Hr]).
    rewrite (bind_ok _ _ s r s) by reflexivity.
    destruct (Z.ltb_spec 0 r) as [_|]; [cbn [negb] | lia].
    erewrite (bind_ok _ _ s (VInt fi) s)
      by (eapply getitem_run; [exact Hl | exact Hfi]).
    rewrite (bind_ok _ _ s fi s) by reflexivity.
    rewrite (bind_ok _ _ s fi' s) by (unfold lift; now rewrite Hround).
    erewrite bind_ok by (eapply setitem_run; exact Hl).
    unfold bind at 1, getitem, bind, load. cbn [heap].
    erewrite heap_insert_lookup by exact Hl.
    rewrite lookup_insert_ne by discriminate. now rewrite Hfo.
Qed.

Lemma build_stage_missing_key_witness :
  build_stage tf_backend zero_repeats_params 1 (0, 0%nat) (External 0, 0)
    (State [∅] [] []) = (Raise (KeyError "repeats"), State [∅] [] []).
Proof.
  exact (proj1 (build_stage_missing_key tf_backend zero_repeats_params 1 0
                  0%nat (External 0, 0) (State [∅] [] []) ∅ eq_refl)
           eq_refl).
Defined.

(** A stage up to its inner loop: the dict is scaled and [repeats] popped. *)
Lemma build_stage_enters K p blocks i l x b s ks r fi fo er sk st se fi' fo' :
  heap s !! l = Some (stage_dict ks r fi fo er sk st se) ->
  0 < r ->
  round_filters (width_coefficient p) (depth_divisor p) fi = Ok fi' ->
  round_filters (width_coefficient p) (depth_divisor p) fo = Ok fo' ->
  build_stage K p blocks (i, l) (x, b) s =
  for_each (seqZ 0 (round_repeats (depth_coefficient p) r))
    (build_block K p blocks i l) (x, b)
    (State (<[l := block_dict ks fi' fo' er sk st se]> (heap s)) (built s)
       (block_calls s)).
Proof.
  intros Hl Hr Hfi Hfo. unfold build_stage.
  erewrite (bind_ok _ _ s (VInt r) s)
    by (eapply getitem_run; [exact Hl | reflexivity]).
  rewrite (bind_ok _ _ s r s) by reflexivity.
  destruct (Z.ltb_spec 0 r) as [_|]; [cbn [negb] | lia].
  erewrite (bind_ok _ _ s (VInt fi) s)
    by (eapply getitem_run; [exact Hl | reflexivity]).
  rewrite (bind_ok _ _ s fi s) by reflexivity.
  rewrite (bind_ok _ _ s fi' s) by (unfold lift; now rewrite Hfi).
  erewrite bind_ok by (eapply setitem_run; exact Hl).
  set (d1 := <["filters_in" := VInt fi']> (stage_dict ks r fi fo er sk st se)).
  set (s1 := State _ _ _).
  assert (Hl1 : heap s1 !! l = Some d1)
    by (cbn; eapply heap_insert_lookup; eauto).
  erewrite (bind_ok _ _ s1 (VInt fo) s1)
    by (eapply getitem_run; [exact Hl1 | reflexivity]).
  rewrite (bind_ok _ _ s1 fo s1) by reflexivity.
  rewrite (bind_ok _ _ s1 fo' s1) by (unfold lift; now rewrite Hfo).
  erewrite bind_ok by (eapply setitem_run; exact Hl1).
  set (d2 := <["filters_out" := VInt fo']> d1).
  set (s2 := State _ _ _).
  assert (Hl2 : heap s2 !! l = Some d2)
    by (cbn; eapply heap_insert_lookup; eauto).
  erewrite (bind_ok _ _ s2 (VInt r))
    by (eapply pop_run; [exact Hl2 | reflexivity]).
  set (s3 := State _ _ _).
  rewrite (bind_ok _ _ s3 r s3) by reflexivity.
  unfold s3, s2, s1. cbn [heap built block_calls].
  rewrite !list_insert_insert_eq. reflexivity.
Qed.

(** The later blocks of a stage leave the dict with [strides = 1] and
    [filters_in = filters_out]. *)
Lemma stage_tail_heap K p blocks i l ks fo er sk se js :
  Qeq_bool blocks 0 = false ->
  backend K <> theano ->
  Forall (fun j => 0 < j) js ->
  js <> [] ->
  forall x b s fi st,
    heap s !! l = Some (block_dict ks fi fo er sk st se) ->
    heap (for_each js (build_block K p blocks i l) (x, b) s).2 =
      <[l := block_dict ks fo fo er sk 1 se]> (heap s).
Proof.
  intros Hblocks Hbackend Hjs.
  induction Hjs as [|j js Hj Hjs IH]; intros Hne x b s fi st Hl;
    [contradiction |].
  destruct (build_block_run K p blocks i l j x b s ks fi fo er sk st se
              Hl Hblocks Hbackend ltac:(lia)) as (x1 & new & Hrun).
  destruct (Z.ltb_spec 0 j) as [_|]; [| lia].
  cbn [for_each]. rewrite (bind_ok _ _ _ _ _ Hrun).
  match type of Hrun with _ = (_, ?s') => set (s1 := s') in * end.
  assert (Hl1 : heap s1 !! l = Some (block_dict ks fo fo er sk 1 se)).
  { cbn. eapply heap_insert_lookup; eauto. }
  destruct js as [|j' js'].
  - reflexivity.
  - rewrite (IH ltac:(discriminate) x1 (b + 1) s1 fo 1 Hl1).
    cbn [heap s1]. apply list_insert_insert_eq.
Qed.

(** The dict of a stage, once the stage is built. *)
Lemma build_stage_heap K p blocks i l x b s ks r fi fo er sk st se fi' fo' :
  heap s !! l = Some (stage_dict ks r fi fo er sk st se) ->
  0 < r ->
  round_filters (width_coefficient p) (depth_divisor p) fi = Ok fi' ->
  round_filters (width_coefficient p) (depth_divisor p) fo = Ok fo' ->
  Qeq_bool blocks 0 = false ->
  backend K <> theano ->
  (st = 2 -> pads K x (activation_fn p) (Block (i + 1) 97) fi' ks er) ->
  let n := round_repeats (depth_coefficient p) r in
  heap (build_stage K p blocks (i, l) (x, b) s).2 =
    <[l := if 1 <? n then block_dict ks fo' fo' er sk 1 se
           else block_dict ks fi' fo' er sk st se]> (heap s).
Proof.
  intros Hl Hr Hfi Hfo Hblocks Hbackend Hpads n.
  rewrite (build_stage_enters K p blocks i l x b s ks r fi fo er sk st se
             fi' fo' Hl Hr Hfi Hfo).
  fold n. set (s3 := State _ _ _).
  assert (Hl3 : heap s3 !! l = Some (block_dict ks fi' fo' er sk st se)).
  { cbn. eapply heap_insert_lookup; eauto. }
  destruct (Z.le_gt_cases n 0) as [Hn|Hn].
  - rewrite seqZ_nil by exact Hn. destruct (Z.ltb_spec 1 n); [lia |].
    reflexivity.
  - rewrite seqZ_cons by exact Hn. cbn [for_each].
    destruct (build_block_run K p blocks i l 0 x b s3 ks fi' fo' er sk st se
                Hl3 Hblocks Hbackend (fun _ => Hpads)) as (x1 & new & Hrun).
    cbn [Z.ltb Z.compare] in Hrun.
    rewrite (bind_ok _ _ _ _ _ Hrun).
    match type of Hrun with _ = (_, ?s') => set (s4 := s') in * end.
    destruct (Z.ltb_spec 1 n) as [Hn1|Hn1].
    + rewrite (stage_tail_heap K p blocks i l ks fo' er sk se
                 (seqZ (Z.succ 0) (Z.pred n)) Hblocks Hbackend)
        with (fi := fi') (st := st).
      * cbn [heap s4 s3]. apply list_insert_insert_eq.
      * apply Forall_forall. intros j Hj. apply elem_of_seqZ in Hj. lia.
      * rewrite seqZ_cons by lia. discriminate.
      * exact Hl3.
    + replace (Z.pred n) with 0 by lia. reflexivity.
Qed.

(** [build_stage] works in place.  Once a stage is built, the dict it was
    given has no [repeats]; its [filters_out] is the scaled width; after a
    stage of two blocks or more its [filters_in] is that width too and its
    [strides] is 1, after a stage of one block (or none) its [filters_in]
    is the scaled input width and its [strides] is the table's.  No other
    object of the heap changes. *)
Theorem build_stage_in_place (K : Backend) (p : Params) (blocks : Q) (i : Z)
    (l : nat) (x : tensor) (b : Z) (s : state)
    (ks r fi fo er : Z) (sk : bool) (st : Z) (se : Q) (fi' fo' : Z) :
  heap s !! l = Some (stage_dict ks r fi fo er sk st se) ->
  0 < r ->
  round_filters (width_coefficient p) (depth_divisor p) fi = Ok fi' ->
  round_filters (width_coefficient p) (depth_divisor p) fo = Ok fo' ->
  Qeq_bool blocks 0 = false ->
  backend K <> theano ->
  (st = 2 -> pads K x (activation_fn p) (Block (i + 1) 97) fi' ks er) ->
  let n := round_repeats (depth_coefficient p) r in
  let s' := (build_stage K p blocks (i, l) (x, b) s).2 in
  heap s' !! l =
    Some (if 1 <? n then block_dict ks fo' fo' er sk 1 se
          else block_dict ks fi' fo' er sk st se) /\
  (forall l', l' <> l -> heap s' !! l' = heap s !! l') /\
  length (heap s') = length (heap s).
Proof.
  intros Hl Hr Hfi Hfo Hblocks Hbackend Hpads n s'. subst s'.
  rewrite (build_stage_heap K p blocks i l x b s ks r fi fo er sk st se
             fi' fo' Hl Hr Hfi Hfo Hblocks Hbackend Hpads).
  fold n. split; [| split].
  - eapply heap_insert_lookup; exact Hl.
  - intros l' Hne. now apply list_lookup_insert_ne.
  - apply length_insert.
Qed.

Lemma build_stage_in_place_witness :
  let s' := (build_stage tf_backend
               (variant (11 # 10) (12 # 10) 260 (3 # 10) "efficientnet-b2"
                  true None None None None 1000)
               16 (3, 3%nat) (Call (Input [Some 33; Some 33; Some 48]) [], 8)
               initial_state).2 in
  heap s' !! 3%nat = Some (block_dict 3 88 88 6 true 1 (25 # 100)) /\
  (forall l', l' <> 3%nat -> heap s' !! l' = module_heap !! l') /\
  length (heap s') = 7%nat.
Proof.
  exact (build_stage_in_place tf_backend
           (variant (11 # 10) (12 # 10) 260 (3 # 10) "efficientnet-b2" true
              None None None None 1000)
           16 3 3%nat (Call (Input [Some 33; Some 33; Some 48]) []) 8
           initial_state 3 3 40 80 6 true 2 (25 # 100) 48 88
           eq_refl eq_refl eq_refl eq_refl eq_refl
           (fun H => ltac:(discriminate H))
           (fun _ => ex_intro _ ((1, 1), (1, 1)) eq_refl)).
Defined.

(** ** The construction log only grows *)

Lemma grows_ret {A} (a : A) : grows (ret a).
Proof. intros s. reflexivity. Qed.

Lemma grows_raise {A} e : grows (@raise A e).
Proof. intros s. reflexivity. Qed.

Lemma grows_lift {A} (r : result A) : grows (lift r).
Proof. intros s. reflexivity. Qed.

Lemma grows_call l ts : grows (call l ts).
Proof. intros s. now exists [l]. Qed.

Lemma grows_enter c : grows (enter c).
Proof. intros s. reflexivity. Qed.

Lemma grows_load l : grows (load l).
Proof. intros s. unfold load. destruct (heap s !! l); reflexivity. Qed.

Lemma grows_store l d : grows (store l d).
Proof. intros s. reflexivity. Qed.

Lemma grows_alloc d : grows (alloc d).
Proof. intros s. reflexivity. Qed.

Lemma grows_bind {A B} (m : M A) (k : A -> M B) :
  grows m -> (forall a, grows (k a)) -> grows (bind m k).
Proof.
  intros Hm Hk s. unfold bind. specialize (Hm s).
  destruct (m s) as [[a|e] s1]; cbn in *; [| exact Hm].
  etransitivity; [exact Hm | apply Hk].
Qed.

Lemma grows_for_each {A S} (xs : list A) (body : A -> S -> M S) acc :
  (forall v acc, grows (body v acc)) -> grows (for_each xs body acc).
Proof.
  intros H. revert acc. induction xs as [|v xs IH]; intros acc; cbn.
  - apply grows_ret.
  - apply grows_bind; [apply H | exact IH].
Qed.

Create HintDb grows.
#[local] Hint Resolve grows_ret grows_raise grows_lift grows_call grows_enter
  grows_load grows_store grows_alloc : grows.

Ltac grows_step :=
  match goal with
  | |- grows (bind _ _) => apply grows_bind; [| intros]
  | |- grows (if ?b then _ else _) => destruct b
  | |- grows (match ?x with _ => _ end) => destruct x
  | |- grows _ => solve [auto with grows]
  end.

Lemma grows_getitem l key : grows (getitem l key).
Proof. unfold getitem. repeat grows_step. Qed.

Lemma grows_setitem l key v : grows (setitem l key v).
Proof. unfold setitem. repeat grows_step. Qed.

Lemma grows_pop l key : grows (pop l key).
Proof. unfold pop. repeat grows_step. Qed.

Lemma grows_truediv x y : grows (truediv x y).
Proof. unfold truediv. repeat grows_step. Qed.

Lemma grows_kw_int args key dflt : grows (kw_int args key dflt).
Proof. unfold kw_int. repeat grows_step. Qed.

#[local] Hint Resolve grows_getitem grows_setitem grows_pop grows_truediv
  grows_kw_int : grows.

Lemma grows_block K x act drop_rate name fi fo ks st er se id_skip :
  grows (block K x act drop_rate name fi fo ks st er se id_skip).
Proof. unfold block. repeat grows_step. Qed.

#[local] Hint Resolve grows_block : grows.

Lemma grows_block_kw K x act drop_rate name l :
  grows (block_kw K x act drop_rate name l).
Proof. unfold block_kw. repeat grows_step. Qed.

#[local] Hint Resolve grows_block_kw : grows.

Lemma grows_build_block K p blocks i l j xb :
  grows (build_block K p blocks i l j xb).
Proof. unfold build_block. repeat grows_step. Qed.

Lemma grows_build_stage K p blocks il xb :
  grows (build_stage K p blocks il xb).
Proof.
  unfold build_stage. repeat grows_step.
  apply grows_for_each. intros. apply grows_build_block.
Qed.

Lemma grows_sum_repeats ls acc : grows (sum_repeats ls acc).
Proof. revert acc. induction ls; intros; cbn; repeat grows_step. Qed.

Lemma grows_deepcopy_from memo ls : grows (deepcopy_from memo ls).
Proof. revert memo. induction ls; intros; cbn; repeat grows_step. Qed.

#[local] Hint Resolve grows_build_stage grows_sum_repeats
  grows_deepcopy_from grows_for_each : grows.

Lemma grows_build_top K W p img x : grows (build_top K W p img x).
Proof. unfold build_top. repeat grows_step. Qed.

(** ** The stem *)

Lemma input_run K p shape s :
  match input_tensor p with
  | Some t =>
      if negb (is_keras_tensor K t)
      then call (InputTensor shape) [t]
      else ret t
  | None => call (Input shape) []
  end s =
  (Ok (input_of K p shape),
   State (heap s) (built s ++ input_layers K p shape) (block_calls s)).
Proof.
  unfold input_of, input_layers.
  destruct (input_tensor p) as [t|]; [destruct (is_keras_tensor K t) |];
    cbn; try reflexivity.
  unfold ret. rewrite app_nil_r. now destruct s.
Qed.

(** The first steps of the builder: the checks, the input shape, the input
    layer and the padding of the stem. *)
Ltac enter_builder Hcheck Hshape Hpad :=
  unfold EfficientNet;
  rewrite (bind_ok _ _ _ tt _ Hcheck);
  rewrite (bind_lift_ok _ _ _ _ Hshape);
  rewrite (bind_ok _ _ _ _ _ (input_run _ _ _ _)); cbv zeta;
  rewrite (bind_lift_ok _ _ _ _ Hpad), bind_call;
  cbn [heap built block_calls].

(** The stem.  Once the checks have passed and the input shape is known,
    the builder makes the input layer (none for an [input_tensor] that is a
    Keras tensor), pads by [correct_pad] for a kernel of 3 and convolves
    with [round_filters(32)] filters, a 3x3 kernel, stride 2, padding
    [valid] and no bias, then normalises and activates; whatever comes
    after, these layers open the construction log. *)
Theorem EfficientNet_stem (K : Backend) (W : World) (p : Params) (s : state)
    (shape : list (option Z)) (pad : pad2d) (f : Z) :
  check_arguments W p s = (Ok tt, s) ->
  _obtain_input_shape W (input_shape p) (default_size p) 32
    (image_data_format K) (include_top p) (weights p) = Ok shape ->
  correct_pad K (input_of K p shape) (KInt 3) = Ok pad ->
  round_filters (width_coefficient p) (depth_divisor p) 32 = Ok f ->
  exists rest,
    built (EfficientNet K W p s).2 =
      built s ++ input_layers K p shape ++
        [ZeroPadding2D pad (Name NoPrefix "stem_conv_pad");
         Conv2D f (3, 3) 2 valid false linear (Name NoPrefix "stem_conv");
         BatchNormalization (match image_data_format K with
                             | channels_last => -1
                             | channels_first => 1
                             end) (Name NoPrefix "stem_bn");
         Activation (activation_fn p) (Name NoPrefix "stem_activation")]
        ++ rest.
Proof.
  intros Hcheck Hshape Hpad Hf.
  enter_builder Hcheck Hshape Hpad.
  rewrite (bind_lift_ok _ f _ _ Hf), !bind_call.
  cbn [heap built block_calls].
  match goal with
  | |- exists rest, built (?m ?s1).2 = _ =>
      assert (Hgrows : grows m) by (unfold deepcopy; repeat grows_step);
      destruct (Hgrows s1) as [rest Hrest]
  end.
  exists rest. rewrite Hrest. cbn [built].
  rewrite <- !app_assoc. reflexivity.
Qed.

Lemma EfficientNet_stem_witness :
  exists rest,
    built (EfficientNetB0 tf_backend bare_world true None None None None 1000
             initial_state).2 =
      [Input [Some 224; Some 224; Some 3];
       ZeroPadding2D ((0, 1), (0, 1)) (Name NoPrefix "stem_conv_pad");
       Conv2D 32 (3, 3) 2 valid false linear (Name NoPrefix "stem_conv");
       BatchNormalization (-1) (Name NoPrefix "stem_bn");
       Activation swish (Name NoPrefix "stem_activation")] ++ rest.
Proof.
  exact (EfficientNet_stem tf_backend bare_world
           (variant 1 1 224 (2 # 10) "efficientnet-b0" true None None None
              None 1000)
           initial_state [Some 224; Some 224; Some 3] ((0, 1), (0, 1)) 32
           eq_refl eq_refl eq_refl eq_refl).
Defined.

(** A [depth_divisor] of 0 stops the build at the stem convolution with
    [ZeroDivisionError], the input layer and the padding already built. *)
Theorem EfficientNet_zero_divisor (K : Backend) (W : World) (p : Params)
    (s : state) (shape : list (option Z)) (pad : pad2d) :
  check_arguments W p s = (Ok tt, s) ->
  _obtain_input_shape W (input_shape p) (default_size p) 32
    (image_data_format K) (include_top p) (weights p) = Ok shape ->
  correct_pad K (input_of K p shape) (KInt 3) = Ok pad ->
  depth_divisor p = 0 ->
  EfficientNet K W p s =
    (Raise ZeroDivisionError,
     State (heap s)
       (built s ++ input_layers K p shape ++
          [ZeroPadding2D pad (Name NoPrefix "stem_conv_pad")])
       (block_calls s)).
Proof.
  intros Hcheck Hshape Hpad Hd.
  enter_builder Hcheck Hshape Hpad.
  unfold bind at 1, lift at 1, round_filters. rewrite Hd. cbn.
  now rewrite <- app_assoc.
Qed.

Lemma EfficientNet_zero_divisor_witness :
  EfficientNet tf_backend bare_world
    {| width_coefficient := 1; depth_coefficient := 1; default_size := 224;
       dropout_rate := 2 # 10; drop_connect_rate := 2 # 10; depth_divisor := 0;
       activation_fn := swish; blocks_args := DEFAULT_BLOCKS_ARGS;
       model_name := "efficientnet-b0"; include_top := true; weights := None;
       input_tensor := None; input_shape := None; pooling := None;
       num_classes := 1000 |} initial_state =
    (Raise ZeroDivisionError,
     State module_heap
       [Input [Some 224; Some 224; Some 3];
        ZeroPadding2D ((0, 1), (0, 1)) (Name NoPrefix "stem_conv_pad")] []).
Proof.
  exact (EfficientNet_zero_divisor tf_backend bare_world
           {| width_coefficient := 1; depth_coefficient := 1;
              default_size := 224; dropout_rate := 2 # 10;
              drop_connect_rate := 2 # 10; depth_divisor := 0;
              activation_fn := swish; blocks_args := DEFAULT_BLOCKS_ARGS;
              model_name := "efficientnet-b0"; include_top := true;
              weights := None; input_tensor := None; input_shape := None;
              pooling := None; num_classes := 1000 |}
           initial_state [Some 224; Some 224; Some 3] ((0, 1), (0, 1))
           eq_refl eq_refl eq_refl eq_refl).
Defined.

(** ** The top of the network and the weights *)


(** What the top does: three layers, the head, the weights. *)
Lemma build_top_run K W p img x s :
  depth_divisor p <> 0 ->
  exists new,
    build_top K W p img x s =
      (match
         match weights p with
         | Some w =>
             if bool_decide (w = "imagenet")
             then match WEIGHTS_HASHES !! last_two (model_name p) with
                  | None => Raise (KeyError (last_two (model_name p)))
                  | Some h =>
                      Ok (from_url (weights_file p)
                            (BASE_WEIGHTS_PATH ++ weights_file p)
                            (if include_top p then h.1 else h.2))
                  end
             else Ok (from_path w)
         | None => Ok random_initialization
         end
       with
       | Ok loaded =>
           Ok {| inputs_of := match input_tensor p with
                              | Some t => get_source_inputs W t
                              | None => [img]
                              end;
                 outputs_of := top_output K p x;
                 name_of := model_name p;
                 weights_of := loaded |}
       | Raise e => Raise e
       end,
       State (heap s) (built s ++ new) (block_calls s)).
Proof.
  intros Hdiv. unfold build_top, top_output, weights_file.
  rewrite (bind_lift_ok _ _ _ _ (round_filters_scaled p 1280 Hdiv)).
  rewrite !bind_call. cbn [heap built block_calls].
  destruct (include_top p);
    [ destruct (Qltb 0 (dropout_rate p))
    | destruct (bool_decide (pooling p = Some "avg"));
      [| destruct (bool_decide (pooling p = Some "max"))] ];
    (destruct (weights p) as [w|];
       [ destruct (bool_decide (w = "imagenet"));
         [destruct (WEIGHTS_HASHES !! last_two (model_name p)) as [h|] |] |]);
    run; eexists; flatten_log; reflexivity.
Qed.







(** An empty table is no error: the builder returns a network of the stem
    and the top alone, no block called and the heap as it was. *)
Theorem EfficientNet_empty_table (K : Backend) (W : World) (p : Params)
    (s : state) (shape : list (option Z)) (pad : pad2d) :
  check_arguments W p s = (Ok tt, s) ->
  _obtain_input_shape W (input_shape p) (default_size p) 32
    (image_data_format K) (include_top p) (weights p) = Ok shape ->
  correct_pad K (input_of K p shape) (KInt 3) = Ok pad ->
  depth_divisor p <> 0 ->
  blocks_args p = [] ->
  weights p <> Some "imagenet" ->
  exists m s',
    EfficientNet K W p s = (Ok m, s') /\
    heap s' = heap s /\
    block_calls s' = block_calls s /\
    outputs_of m =
      top_output K p
        (Call (Activation (activation_fn p) (Name NoPrefix "stem_activation"))
           [Call (BatchNormalization (match image_data_format K with
                                      | channels_last => -1
                                      | channels_first => 1
                                      end) (Name NoPrefix "stem_bn"))
              [Call (Conv2D (scaled p 32) (3, 3) 2 valid false linear
                       (Name NoPrefix "stem_conv"))
                 [Call (ZeroPadding2D pad (Name NoPrefix "stem_conv_pad"))
                    [input_of K p shape]]]]).
Proof.
  intros Hcheck Hshape Hpad Hdiv Hargs Hw.
  assert (Htop : exists x s1,
             EfficientNet K W p s = build_top K W p (input_of K p shape) x s1 /\
             heap s1 = heap s /\ block_calls s1 = block_calls s /\
             x = Call (Activation (activation_fn p)
                         (Name NoPrefix "stem_activation"))
                   [Call (BatchNormalization
                            (match image_data_format K with
                             | channels_last => -1
                             | channels_first => 1
                             end) (Name NoPrefix "stem_bn"))
                      [Call (Conv2D (scaled p 32) (3, 3) 2 valid false linear
                               (Name NoPrefix "stem_conv"))
                         [Call (ZeroPadding2D pad
                                  (Name NoPrefix "stem_conv_pad"))
                            [input_of K p shape]]]]).
  { enter_builder Hcheck Hshape Hpad.
    rewrite (bind_lift_ok _ _ _ _ (round_filters_scaled p 32 Hdiv)).
    rewrite !bind_call. cbn [heap built block_calls].
    rewrite Hargs.
    rewrite (bind_ok (deepcopy []) _ _ [] _ eq_refl).
    rewrite (bind_ok (sum_repeats [] 0) _ _ 0 _ eq_refl).
    cbn [length Z.of_nat]. rewrite seqZ_nil by lia. cbn [zip zip_with].
    rewrite (bind_ok (for_each [] _ _) _ _ _ _ eq_refl).
    eexists _, _. split; [reflexivity |]. cbn [heap block_calls]. auto. }
  destruct Htop as (x & s1 & -> & Hheap & Hcalls & Hx).
  destruct (build_top_run K W p (input_of K p shape) x s1 Hdiv)
    as (new & ->).
  rewrite <- Hx.
  destruct (weights p) as [w|].
  - rewrite bool_decide_eq_false_2 by congruence.
    eexists _, _. split; [reflexivity |]. cbn. auto.
  - eexists _, _. split; [reflexivity |]. cbn. auto.
Qed.

Lemma EfficientNet_empty_table_witness :
  exists m s',
    EfficientNet tf_backend bare_world
      {| width_coefficient := 1; depth_coefficient := 1; default_size := 224;
         dropout_rate := 2 # 10; drop_connect_rate := 2 # 10;
         depth_divisor := 8; activation_fn := swish; blocks_args := [];
         model_name := "efficientnet"; include_top := true; weights := None;
         input_tensor := None; input_shape := None; pooling := None;
         num_classes := 1000 |} initial_state = (Ok m, s') /\
    heap s' = module_heap /\ block_calls s' = [].
Proof.
  destruct (EfficientNet_empty_table tf_backend bare_world
              {| width_coefficient := 1; depth_coefficient := 1;
                 default_size := 224; dropout_rate := 2 # 10;
                 drop_connect_rate := 2 # 10; depth_divisor := 8;
                 activation_fn := swish; blocks_args := [];
                 model_name := "efficientnet"; include_top := true;
                 weights := None; input_tensor := None; input_shape := None;
                 pooling := None; num_classes := 1000 |}
              initial_state [Some 224; Some 224; Some 3] ((0, 1), (0, 1))
              eq_refl eq_refl eq_refl (fun H => ltac:(discriminate H)) eq_refl
              (fun H => ltac:(discriminate H)))
    as (m & s' & Hrun & Hheap & Hcalls & _).
  exists m, s'. auto.
Defined.

(** ** No two layers of a build share a name *)

Lemma unnamed_ret {A} (a : A) : unnamed (ret a).
Proof. intros s. exists []. now rewrite app_nil_r. Qed.

Lemma unnamed_raise {A} e : unnamed (@raise A e).
Proof. intros s. exists []. now rewrite app_nil_r. Qed.

Lemma unnamed_lift {A} (r : result A) : unnamed (lift r).
Proof. intros s. exists []. now rewrite app_nil_r. Qed.

Lemma unnamed_enter c : unnamed (enter c).
Proof. intros s. exists []. now rewrite app_nil_r. Qed.

Lemma unnamed_load l : unnamed (load l).
Proof.
  intros s. exists []. unfold load.
  destruct (heap s !! l); now rewrite app_nil_r.
Qed.

Lemma unnamed_store l d : unnamed (store l d).
Proof. intros s. exists []. now rewrite app_nil_r. Qed.

Lemma unnamed_alloc d : unnamed (alloc d).
Proof. intros s. exists []. now rewrite app_nil_r. Qed.

Lemma unnamed_call l ts : layer_name_of l = None -> unnamed (call l ts).
Proof. intros H s. exists [l]. cbn. now rewrite H. Qed.

Lemma unnamed_bind {A B} (m : M A) (k : A -> M B) :
  unnamed m -> (forall a, unnamed (k a)) -> unnamed (bind m k).
Proof.
  intros Hm Hk s. unfold bind. destruct (Hm s) as (new1 & H1 & N1).
  destruct (m s) as [[a|e] s1]; cbn in *; [| eauto].
  destruct (Hk a s1) as (new2 & H2 & N2).
  exists (new1 ++ new2). rewrite H2, H1, app_assoc. split; [reflexivity |].
  now rewrite omap_app, N1, N2.
Qed.

Create HintDb unnamed.
#[local] Hint Resolve unnamed_ret unnamed_raise unnamed_lift unnamed_enter
  unnamed_load unnamed_store unnamed_alloc : unnamed.

Ltac unnamed_step :=
  match goal with
  | |- unnamed (bind _ _) => apply unnamed_bind; [| intros]
  | |- unnamed (call _ _) => apply unnamed_call; reflexivity
  | |- unnamed (if ?b then _ else _) => destruct b
  | |- unnamed (match ?x with _ => _ end) => destruct x
  | |- unnamed _ => solve [auto with unnamed]
  end.

Lemma unnamed_getitem l key : unnamed (getitem l key).
Proof. unfold getitem. repeat unnamed_step. Qed.

Lemma unnamed_setitem l key v : unnamed (setitem l key v).
Proof. unfold setitem. repeat unnamed_step. Qed.

Lemma unnamed_pop l key : unnamed (pop l key).
Proof. unfold pop. repeat unnamed_step. Qed.

Lemma unnamed_truediv x y : unnamed (truediv x y).
Proof. unfold truediv. repeat unnamed_step. Qed.

Lemma unnamed_kw_int args key dflt : unnamed (kw_int args key dflt).
Proof. unfold kw_int. repeat unnamed_step. Qed.

#[local] Hint Resolve unnamed_getitem unnamed_setitem unnamed_pop
  unnamed_truediv unnamed_kw_int : unnamed.

Lemma unnamed_sum_repeats ls acc : unnamed (sum_repeats ls acc).
Proof. revert acc. induction ls; intros; cbn; repeat unnamed_step. Qed.

Lemma unnamed_deepcopy_from memo ls : unnamed (deepcopy_from memo ls).
Proof. revert memo. induction ls; intros; cbn; repeat unnamed_step. Qed.

Lemma unnamed_check_arguments W p : unnamed (check_arguments W p).
Proof. unfold check_arguments. repeat unnamed_step. Qed.

#[local] Hint Resolve unnamed_sum_repeats unnamed_deepcopy_from
  unnamed_check_arguments : unnamed.

Lemma named_unnamed (P : layer_name -> Prop) {A} (m : M A) :
  unnamed m -> named P m.
Proof.
  intros H s. destruct (H s) as (new & Hnew & Hnone).
  exists new. rewrite Hnone. split; [exact Hnew |].
  split; [constructor | intros n Hn; inversion Hn].
Qed.

Lemma named_weaken (P Q : layer_name -> Prop) {A} (m : M A) :
  named P m -> (forall n, P n -> Q n) -> named Q m.
Proof.
  intros H HPQ s. destruct (H s) as (new & Hnew & Hnodup & Hin).
  exists new. eauto.
Qed.

Lemma named_call l ts n :
  layer_name_of l = Some n -> named (eq n) (call l ts).
Proof.
  intros H s. exists [l]. cbn. rewrite H. cbn.
  split; [reflexivity |]. split.
  - apply NoDup_singleton.
  - intros n' Hn'. apply list_elem_of_singleton in Hn'. now subst.
Qed.

Lemma named_bind (P Q : layer_name -> Prop) {A B} (m : M A) (k : A -> M B) :
  named P m -> (forall a, named Q (k a)) ->
  (forall n, P n -> Q n -> False) ->
  named (fun n => P n \/ Q n) (bind m k).
Proof.
  intros Hm Hk Hdisj s. unfold bind.
  destruct (Hm s) as (new1 & H1 & N1 & P1).
  destruct (m s) as [[a|e] s1]; cbn in *.
  - destruct (Hk a s1) as (new2 & H2 & N2 & P2).
    exists (new1 ++ new2). rewrite H2, H1, app_assoc.
    split; [reflexivity |]. rewrite omap_app. split.
    + apply NoDup_app. split; [exact N1 |]. split; [| exact N2].
      intros n Hn1 Hn2. exact (Hdisj n (P1 n Hn1) (P2 n Hn2)).
    + intros n Hn. apply elem_of_app in Hn. destruct Hn; auto.
  - exists new1. split; [exact H1 |]. split; [exact N1 | auto].
Qed.

Lemma named_bind_unnamed (Q : layer_name -> Prop) {A B} (m : M A)
    (k : A -> M B) :
  unnamed m -> (forall a, named Q (k a)) -> named Q (bind m k).
Proof.
  intros Hm Hk.
  eapply named_weaken.
  - apply (named_bind (fun _ => False) Q); [now apply named_unnamed | exact Hk |].
    intros n [].
  - intros n [[]|H]. exact H.
Qed.

Lemma named_if (P Q : layer_name -> Prop) {A} (b : bool) (m1 m2 : M A) :
  named P m1 -> named Q m2 ->
  named (fun n => P n \/ Q n) (if b then m1 else m2).
Proof.
  intros H1 H2. destruct b; eapply named_weaken; eauto.
Qed.

Lemma named_for_each {A S} (key : A -> Z) (R : Z -> layer_name -> Prop)
    (xs : list A) (body : A -> S -> M S) :
  (forall k k' n, R k n -> R k' n -> k = k') ->
  (forall v acc, named (R (key v)) (body v acc)) ->
  NoDup (key <$> xs) ->
  forall acc,
    named (fun n => exists v, v ∈ xs /\ R (key v) n) (for_each xs body acc).
Proof.
  intros Hinj Hbody. induction xs as [|v xs IH]; intros Hnodup acc.
  - cbn. apply named_unnamed, unnamed_ret.
  - rewrite fmap_cons in Hnodup. apply NoDup_cons in Hnodup.
    destruct Hnodup as [Hnotin Hnodup]. cbn [for_each].
    eapply named_weaken.
    + apply (named_bind (R (key v))
               (fun n => exists v', v' ∈ xs /\ R (key v') n)).
      * apply Hbody.
      * intros acc'. now apply IH.
      * intros n Hv (v' & Hin & Hv'). apply Hnotin.
        rewrite (Hinj _ _ _ Hv Hv'). apply list_elem_of_fmap. eauto.
    + intros n [Hv | (v' & Hin & Hv')].
      * exists v. split; [left | exact Hv].
      * exists v'. split; [now right | exact Hv'].
Qed.

(** The layers of a block are named apart, under the prefix of the block. *)
Lemma named_block K x act drop_rate name fi fo ks st er se id_skip :
  named (fun n => name_prefix n = name)
    (block K x act drop_rate name fi fo ks st er se id_skip).
Proof.
  intros s.
  destruct (block_trace K x act drop_rate name fi fo ks st er se id_skip s)
    as (new & out & -> & _ & _ & Hall & Hsub).
  exists new. split; [reflexivity |].
  assert (Hbase : NoDup (omap (fun l => name_base <$> layer_name_of l) new)).
  { exact (sublist_NoDup _ _ NoDup_block_layer_names Hsub). }
  split.
  - clear Hsub. induction new as [|l new IH]; [constructor |].
    apply Forall_cons_1 in Hall as [Hl Hall]. cbn in Hbase |- *.
    destruct (layer_name_of l) as [[pre base]|]; [| discriminate].
    cbn in Hbase |- *. apply NoDup_cons in Hbase as [Hnotin Hbase].
    apply NoDup_cons. split; [| now apply IH].
    intros Hin. apply Hnotin.
    apply list_elem_of_omap in Hin as (l' & Hl' & E).
    apply list_elem_of_omap. exists l'. split; [exact Hl' |].
    rewrite E. reflexivity.
  - intros n Hn. apply list_elem_of_omap in Hn as (l & Hl & E).
    rewrite Forall_forall in Hall. specialize (Hall l Hl).
    rewrite E in Hall. now injection Hall.
Qed.

Lemma named_block_kw K x act drop_rate name l :
  named (fun n => name_prefix n = name)
    (block_kw K x act drop_rate name l).
Proof.
  unfold block_kw.
  apply named_bind_unnamed; [apply unnamed_load | intros args].
  destruct (forallb _ _); [| apply named_unnamed, unnamed_raise].
  repeat (apply named_bind_unnamed; [apply unnamed_kw_int | intros]).
  apply named_block.
Qed.

Lemma named_build_block K p blocks i l j xb :
  named (fun n => name_prefix n = Block (i + 1) (j + 97))
    (build_block K p blocks i l j xb).
Proof.
  unfold build_block. destruct xb as [x b].
  apply named_bind_unnamed; [repeat unnamed_step | intros].
  apply named_bind_unnamed; [repeat unnamed_step | intros].
  eapply named_weaken.
  - apply (named_bind (fun n => name_prefix n = Block (i + 1) (j + 97))
             (fun _ => False)).
    + apply named_block_kw.
    + intros. apply named_unnamed, unnamed_ret.
    + auto.
  - intros n [H|[]]. exact H.
Qed.

Lemma named_build_stage K p blocks i l xb :
  named (fun n => exists j, name_prefix n = Block (i + 1) j)
    (build_stage K p blocks (i, l) xb).
Proof.
  unfold build_stage. destruct xb as [x b].
  repeat (apply named_bind_unnamed; [repeat unnamed_step | intros]).
  destruct (negb _); [apply named_unnamed, unnamed_raise |].
  repeat (apply named_bind_unnamed; [repeat unnamed_step | intros]).
  eapply named_weaken.
  - apply (named_for_each (fun j => j)
             (fun j n => name_prefix n = Block (i + 1) (j + 97))).
    + intros k k' n H1 H2. rewrite H1 in H2. injection H2. lia.
    + intros. apply named_build_block.
    + rewrite list_fmap_id. apply NoDup_seqZ.
  - intros n (j & _ & H). eauto.
Qed.

Lemma named_body K p blocks ls i xb :
  named (fun n => exists i j, name_prefix n = Block i j)
    (for_each (zip (seqZ i (Z.of_nat (length ls))) ls)
       (build_stage K p blocks) xb).
Proof.
  eapply named_weaken.
  - apply (named_for_each fst
             (fun i n => exists j, name_prefix n = Block (i + 1) j)).
    + intros k k' n [j Hj] [j' Hj']. rewrite Hj in Hj'. injection Hj'. lia.
    + intros [i' l] acc. apply named_build_stage.
    + rewrite fst_zip by (rewrite length_seqZ; lia). apply NoDup_seqZ.
  - intros n (v & _ & j & H). eauto.
Qed.

(** Names that are told apart by their text or by their prefix. *)
Ltac apart :=
  cbv beta; intros n Hn Hq;
  repeat match goal with
         | H : _ \/ _ |- _ => destruct H
         | H : exists _, _ |- _ => destruct H
         | H : False |- _ => destruct H
         end;
  subst; cbn in *; discriminate.

(** A chain of binds, its layers named one after the other. *)
Ltac names_of_chain :=
  first
    [ solve [apply (named_unnamed (fun _ => False)); repeat unnamed_step]
    | lazymatch goal with
      | |- named _ (bind (for_each _ _ _) _) =>
          eapply named_bind;
          [apply named_body | intros; names_of_chain | apart]
      | |- named _ (bind (call _ _) _) =>
          eapply named_bind;
          [ apply named_call; reflexivity | intros; names_of_chain | apart]
      | |- named _ (bind (if _ then _ else _) _) =>
          eapply named_bind;
          [ names_of_chain | intros; names_of_chain | apart]
      | |- named _ (bind _ _) =>
          eapply named_bind_unnamed;
          [ solve [repeat unnamed_step] | intros; names_of_chain ]
      | |- named _ (if _ then _ else _) =>
          eapply named_if; names_of_chain
      | |- named _ (call _ _) => apply named_call; reflexivity
      | |- named _ (let '(_, _) := ?xb in _) => destruct xb; names_of_chain
      end ].

Lemma named_EfficientNet K W p :
  exists P, named P (EfficientNet K W p).
Proof.
  eexists. unfold EfficientNet, deepcopy. names_of_chain.
Qed.

(** [EfficientNet] never gives two layers the same name: whatever the
    arguments and however the build ends, the names of the layers it has
    built are pairwise distinct. *)
Theorem EfficientNet_layer_names (K : Backend) (W : World) (p : Params)
    (s : state) :
  exists new,
    built (EfficientNet K W p s).2 = built s ++ new /\
    NoDup (omap layer_name_of new).
Proof.
  destruct (named_EfficientNet K W p) as [P H].
  destruct (H s) as (new & Hnew & Hnodup & _). eauto.
Qed.

(** ** Two more ways for a build to stop *)








(** ** [preprocess_input] *)

Lemma preprocess_input_fused (x : list (list (list Q))) :
  preprocess_input x =
  [(fun row : list (list Q) =>
      (fun px : list Q => (fun v => (v / 255 - (1 # 2)) * 2)%Q <$> px) <$> row)
     <$> x].
Proof.
  unfold preprocess_input, np_map, expand_dims_0. cbn [fmap list_fmap].
  f_equal. rewrite <- !list_fmap_compose.
  apply list_fmap_ext. intros _ row _. cbn.
  rewrite <- !list_fmap_compose.
  apply list_fmap_ext. intros _ px _. cbn.
  rewrite <- !list_fmap_compose. reflexivity.
Qed.

(** [preprocess_input] returns a batch of one image of the shape of its
    argument: a value is defined at the same row, pixel and channel as in
    the argument, and is [2 * v / 255 - 1] for the value [v] there. *)
Theorem preprocess_input_pointwise (x : list (list (list Q))) :
  exists y,
    preprocess_input x = [y] /\
    forall i j c,
      match pixel x i j c with
      | Some v => exists v', pixel y i j c = Some v' /\
                             (v' == 2 * v / 255 - 1)%Q
      | None => pixel y i j c = None
      end.
Proof.
  rewrite preprocess_input_fused. eexists. split; [reflexivity |].
  intros i j c. unfold pixel. rewrite list_lookup_fmap.
  destruct (x !! i) as [row|]; cbn; [| reflexivity].
  rewrite list_lookup_fmap.
  destruct (row !! j) as [px|]; cbn; [| reflexivity].
  rewrite list_lookup_fmap.
  destruct (px !! c) as [v|]; cbn; [| reflexivity].
  eexists. split; [reflexivity |]. field.
Qed.

(** Channel values between 0 and 255 come out between -1 and 1. *)
Theorem preprocess_input_range (x : list (list (list Q))) :
  Forall (Forall (Forall (fun v => 0 <= v /\ v <= 255)%Q)) x ->
  Forall (Forall (Forall (Forall (fun v => -1 <= v /\ v <= 1)%Q)))
    (preprocess_input x).
Proof.
  intros H. rewrite preprocess_input_fused.
  constructor; [| constructor].
  apply Forall_fmap. eapply Forall_impl; [exact H |]. intros row Hrow.
  apply Forall_fmap. eapply Forall_impl; [exact Hrow |]. intros px Hpx.
  apply Forall_fmap. eapply Forall_impl; [exact Hpx |]. intros v [H0 H1].
  cbn. unfold Qdiv.
  change (/ 255)%Q with (1 # 255)%Q. lra.
Qed.

Lemma preprocess_input_range_witness :
  Forall (Forall (Forall (Forall (fun v => -1 <= v /\ v <= 1)%Q)))
    (preprocess_input [[[0; 128; 255]%Q]]).
Proof.
  apply (preprocess_input_range [[[0; 128; 255]%Q]]).
  repeat constructor; discriminate.
Defined.

Example preprocess_input_ends :
  Forall2 (Forall2 (Forall2 (Forall2 Qeq)))
    (preprocess_input [[[0; 255]%Q]]) [[[[-1; 1]%Q]]].
Proof. repeat constructor. Qed.
